(** * SaveVideo: the frame queue, the writer thread and the file numbering

    A shallow embedding of [src/Modules/SaveVideo/SaveVideo.C].  The module
    has two threads: the engine thread, which calls [process], [parseSerial],
    [postInit] and [postUninit], and the thread started by [postInit], which
    executes [run].  They share [itsBuf], [itsRunning], [itsFileNum] and
    [itsFilename].  The embedding is a small-step interleaving semantics: each
    thread has a program counter, a schedule is a list of actions, and every
    action is one atomic piece of the source.

    - The engine calls the module from one thread, so a call is an action
      only while no other call is in progress.  [process] is one action: it
      is the only producer of frames, and a step of [run] between its test
      of the filled size and its [push] can only shorten the queue, so it
      commutes with the [push].  The calls that wait, [parseSerial("stop")]
      and [postUninit], are cut at every access to the queue and to the
      future of [run].
    - [run] is cut after [pop], after the lines that prepare the file name,
      and at every turn of the loop that probes file names, which need not
      end.
    - Time is not modelled: [sleep_for] takes no step of its own. *)

From Stdlib Require Import ZArith QArith Ascii String DecimalString.
From stdpp Require Import gmap strings list fin_maps.

Open Scope string_scope.
Open Scope Z_scope.

(** ** C library and OpenCV data *)

(** [int] is 32 bits wide on the target; [++] on [INT_MAX] is undefined. *)
Definition INT_MAX : Z := 2147483647.

(** [++n] on an [int]: defined only below [INT_MAX]. *)
Definition incr_int (n : Z) : option Z :=
  if n <? INT_MAX then Some (n + 1) else None.

(** [std::to_string] on a non-negative or negative integer. *)
Definition to_string (n : Z) : string := NilZero.string_of_int (Z.to_int n).

Definition is_digit (c : ascii) : bool :=
  let n := nat_of_ascii c in (48 <=? n)%nat && (n <=? 57)%nat.

Definition digit_val (c : ascii) : nat := (nat_of_ascii c - 48)%nat.

Fixpoint replicate_char (n : nat) (c : ascii) : string :=
  match n with
  | O => EmptyString
  | S k => String c (replicate_char k c)
  end.

(** The conversion [%d] with an optional [0] flag and an optional width. *)
Definition render_d (zero : bool) (width : nat) (n : Z) : string :=
  let digits := to_string (Z.abs n) in
  let sign := if n <? 0 then "-" else "" in
  let pad := (width - String.length sign - String.length digits)%nat in
  if zero then sign +:+ replicate_char pad "0" +:+ digits
  else replicate_char pad " " +:+ sign +:+ digits.

(** Where the scanner of a format string stands: in literal text, or inside
    a directive after its [%], with the [0] flag and the width read so far. *)
Inductive FmtState :=
| FLit
| FDir (zero : bool) (width : option nat).

(** [printf] formatting with one [int] argument.  Literal text is copied,
    [%%] gives a percent sign, [%d] and [%i] (with flag [0] and a width)
    consume the argument.  [None] stands for what the C standard leaves
    undefined (a second directive with no argument left, an incomplete
    directive) and for directives outside of this fragment. *)
Fixpoint vformat (fmt : string) (st : FmtState) (arg : option Z) : option string :=
  match fmt with
  | EmptyString => match st with FLit => Some EmptyString | FDir _ _ => None end
  | String c rest =>
    match st with
    | FLit =>
      if Ascii.eqb c "%" then vformat rest (FDir false None) arg
      else String c <$> vformat rest FLit arg
    | FDir zero None =>
      if Ascii.eqb c "%" then
        if zero then None else String "%"%char <$> vformat rest FLit arg
      else if Ascii.eqb c "0" then vformat rest (FDir true None) arg
      else if is_digit c then vformat rest (FDir zero (Some (digit_val c))) arg
      else if Ascii.eqb c "d" || Ascii.eqb c "i" then
        match arg with
        | Some n => String.append (render_d zero 0 n) <$> vformat rest FLit None
        | None => None
        end
      else None
    | FDir zero (Some w) =>
      if is_digit c then vformat rest (FDir zero (Some (10 * w + digit_val c)%nat)) arg
      else if Ascii.eqb c "d" || Ascii.eqb c "i" then
        match arg with
        | Some n => String.append (render_d zero w n) <$> vformat rest FLit None
        | None => None
        end
      else None
    end
  end.

(** [std::snprintf(buf, size, fmt, n)]: at most [size - 1] characters are
    stored. *)
Definition snprintf (size : nat) (fmt : string) (n : Z) : option string :=
  substring 0 (size - 1) <$> vformat fmt FLit (Some n).

(** [cv::Mat]: the header fields that [empty()] and [size()] read, and the
    pixel data. *)
Record Mat := mkMat { rows : nat; cols : nat; data : list Z }.

(** [cv::Mat()], the default-constructed matrix. *)
Definition Mat_default : Mat := mkMat 0 0 [].

(** [cv::Mat::empty()]. *)
Definition Mat_empty (m : Mat) : bool := (rows m * cols m =? 0)%nat.

(** [cv::Mat::size()], width first. *)
Definition Mat_size (m : Mat) : nat * nat := (cols m, rows m).

(** [jevois::RawImage]. *)
Record RawImage := mkRawImage {
  width : nat; height : nat; fmt : Z; pixels : list Z }.

(** [v4l2_fourcc('Y','U','Y','V')]. *)
Definition V4L2_PIX_FMT_YUYV : Z := 0x56595559.

(** [RawImage::require]: the image has the given size and pixel format;
    the source throws when it has not. *)
Definition require (img : RawImage) (w h : nat) (f : Z) : bool :=
  (width img =? w)%nat && (height img =? h)%nat && (fmt img =? f).

(** [cv::VideoWriter::fourcc(c1, c2, c3, c4)]. *)
Definition VideoWriter_fourcc (c1 c2 c3 c4 : ascii) : Z :=
  Z.lor (Z.land (Z.of_nat (nat_of_ascii c1)) 255)
    (Z.lor (Z.shiftl (Z.land (Z.of_nat (nat_of_ascii c2)) 255) 8)
       (Z.lor (Z.shiftl (Z.land (Z.of_nat (nat_of_ascii c3)) 255) 16)
          (Z.shiftl (Z.land (Z.of_nat (nat_of_ascii c4)) 255) 24))).

(** [fcc[i]] on a [std::string]; index [size()] reads the terminator. *)
Definition char_at (s : string) (i : nat) : ascii :=
  match String.get i s with Some c => c | None => zero end.

(** [std::string::rfind(c)]: the last position of [c], [None] for [npos]. *)
Fixpoint rfind (s : string) (c : ascii) : option nat :=
  match s with
  | EmptyString => None
  | String a rest =>
    match rfind rest c with
    | Some i => Some (S i)
    | None => if Ascii.eqb a c then Some O else None
    end
  end.

(** [fn.substr(0, fn.rfind('/'))]; with [npos] the whole string is kept. *)
Definition substr_to_rfind (fn : string) (c : ascii) : string :=
  match rfind fn c with
  | Some i => substring 0 i fn
  | None => fn
  end.

(** ** The world outside of the module *)

(** A video file on disk: the frames stored so far, and whether the
    container has been finalized (its writer released). *)
Record VideoFile := mkVideoFile { frames : list Mat; finalized : bool }.

(** Calls received by OpenCV's [cv::VideoWriter]. *)
Inductive EncEvent :=
| EncOpen (path : string) (cvfcc : Z) (rate : Q) (dims : nat * nat)
| EncWrite (path : string) (im : Mat)
| EncRelease (path : string).

Inductive Level := LINFO | LERROR | LFATAL.

(** A frame sent over USB: the camera image pasted at the origin and the
    text lines drawn over it, each with its position. *)
Record OutImage := mkOutImage {
  base : RawImage; overlay : list (string * Z * Z) }.

(** What the library calls answer.  None of them is part of the module:
    the pixel conversion of [jevois::rawimage], the exit status of
    [std::system], whether [cv::VideoWriter::open] succeeds, and whether
    the file system lets the process read the file of a given name. *)
Record World := mkWorld {
  convertToCvBGR : RawImage -> Mat;
  system : string -> Z;
  encoder_open : string -> Z -> Q -> nat * nat -> bool;
  readable : string -> bool }.

(** ** The two threads *)

(** Program counter of [run], with its locals: [writer] is the path of the
    file the [cv::VideoWriter] has open, if any; [frame] counts the frames
    written in the session; [im] is the image last popped. *)
Inductive WorkerPC :=
| WNotStarted
| WHead
| WPop (writer : option string) (frame : Z)
| WGot (writer : option string) (frame : Z) (im : Mat)
| WProbe (frame : Z) (im : Mat) (cvfcc : Z) (fn : string)
| WReturned
| WThrown (what : string) (im : Mat).

(** Program counter of the engine thread: between two calls, or inside the
    waiting loop of [parseSerial], or inside [postUninit]. *)
Inductive MainPC :=
| MNew
| MFree
| MStopWait
| MStopReport
| MUninitPush
| MUninitLog
| MJoin
| MDone.

(** The module's parameters and members, both threads, and the world. *)
Record State := mkState {
  filename : string;
  fourcc : string;
  fps : Q;
  itsBuf : list Mat;
  itsSaving : bool;
  itsFileNum : Z;
  itsRunning : bool;
  itsFilename : string;
  worker : WorkerPC;
  main : MainPC;
  env : World;
  disk : gmap string VideoFile;
  encoder : list EncEvent;
  serial : list string;
  logs : list (Level * string);
  usb : list OutImage }.

Definition set_itsBuf (q : list Mat) (s : State) : State :=
  mkState (filename s) (fourcc s) (fps s) q (itsSaving s) (itsFileNum s)
    (itsRunning s) (itsFilename s) (worker s) (main s) (env s) (disk s)
    (encoder s) (serial s) (logs s) (usb s).

Definition set_itsSaving (b : bool) (s : State) : State :=
  mkState (filename s) (fourcc s) (fps s) (itsBuf s) b (itsFileNum s)
    (itsRunning s) (itsFilename s) (worker s) (main s) (env s) (disk s)
    (encoder s) (serial s) (logs s) (usb s).

Definition set_itsFileNum (n : Z) (s : State) : State :=
  mkState (filename s) (fourcc s) (fps s) (itsBuf s) (itsSaving s) n
    (itsRunning s) (itsFilename s) (worker s) (main s) (env s) (disk s)
    (encoder s) (serial s) (logs s) (usb s).

Definition set_itsRunning (b : bool) (s : State) : State :=
  mkState (filename s) (fourcc s) (fps s) (itsBuf s) (itsSaving s) (itsFileNum s)
    b (itsFilename s) (worker s) (main s) (env s) (disk s)
    (encoder s) (serial s) (logs s) (usb s).

Definition set_itsFilename (f : string) (s : State) : State :=
  mkState (filename s) (fourcc s) (fps s) (itsBuf s) (itsSaving s) (itsFileNum s)
    (itsRunning s) f (worker s) (main s) (env s) (disk s)
    (encoder s) (serial s) (logs s) (usb s).

Definition set_worker (w : WorkerPC) (s : State) : State :=
  mkState (filename s) (fourcc s) (fps s) (itsBuf s) (itsSaving s) (itsFileNum s)
    (itsRunning s) (itsFilename s) w (main s) (env s) (disk s)
    (encoder s) (serial s) (logs s) (usb s).

Definition set_main (m : MainPC) (s : State) : State :=
  mkState (filename s) (fourcc s) (fps s) (itsBuf s) (itsSaving s) (itsFileNum s)
    (itsRunning s) (itsFilename s) (worker s) m (env s) (disk s)
    (encoder s) (serial s) (logs s) (usb s).

Definition set_disk (d : gmap string VideoFile) (s : State) : State :=
  mkState (filename s) (fourcc s) (fps s) (itsBuf s) (itsSaving s) (itsFileNum s)
    (itsRunning s) (itsFilename s) (worker s) (main s) (env s) d
    (encoder s) (serial s) (logs s) (usb s).

Definition set_encoder (e : list EncEvent) (s : State) : State :=
  mkState (filename s) (fourcc s) (fps s) (itsBuf s) (itsSaving s) (itsFileNum s)
    (itsRunning s) (itsFilename s) (worker s) (main s) (env s) (disk s)
    e (serial s) (logs s) (usb s).

Definition set_serial (l : list string) (s : State) : State :=
  mkState (filename s) (fourcc s) (fps s) (itsBuf s) (itsSaving s) (itsFileNum s)
    (itsRunning s) (itsFilename s) (worker s) (main s) (env s) (disk s)
    (encoder s) l (logs s) (usb s).

Definition set_logs (l : list (Level * string)) (s : State) : State :=
  mkState (filename s) (fourcc s) (fps s) (itsBuf s) (itsSaving s) (itsFileNum s)
    (itsRunning s) (itsFilename s) (worker s) (main s) (env s) (disk s)
    (encoder s) (serial s) l (usb s).

Definition set_usb (l : list OutImage) (s : State) : State :=
  mkState (filename s) (fourcc s) (fps s) (itsBuf s) (itsSaving s) (itsFileNum s)
    (itsRunning s) (itsFilename s) (worker s) (main s) (env s) (disk s)
    (encoder s) (serial s) (logs s) l.

(** The constructor [SaveVideo(instance)], for given parameter values, in a
    given world with the given files on disk. *)
Definition SaveVideo (fn fcc : string) (rate : Q) (w : World)
    (d : gmap string VideoFile) : State :=
  mkState fn fcc rate [] false 0 false "" WNotStarted MNew w d [] [] [] [].

(** ** Library calls with an effect *)

(** Modelled from the spec: [jevois::BoundedBuffer], declared in
    [jevois/Types/BoundedBuffer.H], which is not among the sources.  [push]
    inserts at the tail and does not block the producer at the capacity
    (the 1000 of line 94 is a target, the bound is the test in [process]);
    [pop] removes the head and blocks ([None]) while the queue is empty;
    [filled_size] is the number of queued items. *)
Definition push (im : Mat) (s : State) : State :=
  set_itsBuf (itsBuf s ++ [im]) s.

Definition pop (s : State) : option (Mat * State) :=
  match itsBuf s with
  | [] => None
  | im :: q => Some (im, set_itsBuf q s)
  end.

Definition filled_size (s : State) : Z := Z.of_nat (length (itsBuf s)).

(** [sendSerial]. *)
Definition sendSerial (msg : string) (s : State) : State :=
  set_serial (serial s ++ [msg]) s.

(** [LINFO], [LERROR], and the logging half of [LFATAL]. *)
Definition log (l : Level) (msg : string) (s : State) : State :=
  set_logs (logs s ++ [(l, msg)]) s.

(** [outframe.send()]. *)
Definition send (o : OutImage) (s : State) : State :=
  set_usb (usb s ++ [o]) s.

(** [writer.open(...)] when it succeeds: the file is created, empty. *)
Definition writer_opened (path : string) (cvfcc : Z) (dims : nat * nat)
    (s : State) : State :=
  set_encoder (encoder s ++ [EncOpen path cvfcc (fps s) dims])
    (set_disk (<[path := mkVideoFile [] false]> (disk s)) s).

(** [writer << im]. *)
Definition writer_write (path : string) (im : Mat) (s : State) : State :=
  set_encoder (encoder s ++ [EncWrite path im])
    (set_disk (alter (fun f => mkVideoFile (frames f ++ [im]) (finalized f))
                 path (disk s)) s).

(** The destructor of [writer]: an open file is finalized. *)
Definition writer_destroyed (writer : option string) (s : State) : State :=
  match writer with
  | None => s
  | Some path =>
    set_encoder (encoder s ++ [EncRelease path])
      (set_disk (alter (fun f => mkVideoFile (frames f) true) path (disk s)) s)
  end.

(** ** The engine thread *)

Definition PATHPREFIX : string := "/jevois/data/savevideo/".

(** How a call returns to the engine: normally, or by an exception.  The
    state is the one left behind in both cases. *)
Inductive Result :=
| Ok (s : State)
| Throw (what : string) (s : State).

Definition state_of (r : Result) : State :=
  match r with Ok s => s | Throw _ s => s end.

(** The text of the [LERROR] at lines 146 and 179. *)
Definition QUEUE_TOO_LARGE : string :=
  "Image queue too large, video writer cannot keep up - DROPPING FRAME".

(** [process(inframe, outframe)], lines 137-166, for the camera image
    [inimg] given by [inframe.get] and the buffer [outimg] given by
    [outframe.get].  [require] throws on a mismatch; what was done before
    stays done.  [inframe.done()] returns the buffer to the camera and
    changes nothing here.  The second text line is drawn at [h - 13],
    computed on [unsigned int]. *)
Definition process (inimg outimg : RawImage) (s : State) : Result :=
  let w := width inimg in
  let h := height inimg in
  if negb (require inimg w h V4L2_PIX_FMT_YUYV) then Throw "input" s
  else
    let s1 :=
      if itsSaving s then
        if 1000 <? filled_size s then
          log LERROR QUEUE_TOO_LARGE s
        else push (convertToCvBGR (env s) inimg) s
      else s in
    if negb (require outimg w h V4L2_PIX_FMT_YUYV) then Throw "output" s1
    else
      let txt := "SaveVideo: " +:+
                 (if itsSaving s1 then "RECORDING" else "not recording") in
      Ok (send (mkOutImage inimg
                  [(txt, 3, 3);
                   (itsFilename s1, 3, (Z.of_nat h - 13) mod 2 ^ 32)]) s1).

(** [process(inframe)], lines 171-185, the overload with no video output. *)
Definition process_nousb (inimg : RawImage) (s : State) : Result :=
  if itsSaving s then
    if 1000 <? filled_size s then
      Ok (log LERROR QUEUE_TOO_LARGE s)
    else Ok (push (convertToCvBGR (env s) inimg) s)
  else Ok s.

(** Lines 211-213, which end both [parseSerial("stop")] and [postUninit]. *)
Definition sync_and_report (s : State) : State :=
  let s1 := log LINFO "Writer thread completed. Syncing disk..." s in
  let s2 := if system (env s1) "/bin/sync" =? 0 then s1
            else log LERROR "Error syncing disk -- IGNORED" s1 in
  log LINFO ("Video " +:+ itsFilename s2 +:+ " saved.") s2.

(** [parseSerial(str, s)], lines 190-216, up to the waiting loop of the
    stop command, which [main_step] continues.  [itsSaving] is read by the
    engine thread only, so lines 199-203 are one action, taken at the
    [push]. *)
Definition parseSerial (str : string) (s : State) : Result :=
  if String.eqb str "start" then
    Ok (sendSerial "SAVESTART" (set_itsSaving true s))
  else if String.eqb str "stop" then
    Ok (set_main MStopWait
          (push Mat_default (sendSerial "SAVESTOP" (set_itsSaving false s))))
  else Throw "Unsupported module command" s.

(** [postInit], lines 101-107: the flag is set and [run] is launched. *)
Definition postInit (s : State) : State :=
  set_main MFree (set_worker WHead (set_itsRunning true s)).

(** [postUninit], line 115; [main_step] continues it. *)
Definition postUninit (s : State) : State :=
  set_main MUninitPush (set_itsRunning false s).

Definition waiting_message (s : State) : string :=
  "Waiting for writer thread to complete, " +:+ to_string (filled_size s)
  +:+ " frames to go...".

(** One atomic step of the call the engine thread is inside of: the test
    and the body of the loop at lines 206-210, and lines 118, 121 and
    122-125 of [postUninit].  [itsRunFut.get()] blocks until [run] has
    returned or thrown. *)
Definition main_step (s : State) : option State :=
  match main s with
  | MStopWait =>
    if filled_size s =? 0 then Some (set_main MFree (sync_and_report s))
    else Some (set_main MStopReport s)
  | MStopReport => Some (set_main MStopWait (log LINFO (waiting_message s) s))
  | MUninitPush => Some (set_main MUninitLog (push Mat_default s))
  | MUninitLog => Some (set_main MJoin (log LINFO (waiting_message s) s))
  | MJoin =>
    match worker s with
    | WReturned => Some (set_main MDone (sync_and_report s))
    | WThrown what _ =>
      Some (set_main MDone (sync_and_report (log LERROR what s)))
    | _ => None
    end
  | MNew | MFree | MDone => None
  end.

(** ** The writer thread *)

(** Lines 279-282: the frame is written, counted, and reported every
    hundredth time. *)
Definition write_frame (path : string) (frame : Z) (im : Mat) (s : State)
    : option State :=
  let s1 := writer_write path im s in
  frame' ← incr_int frame;
  let s2 := if frame' mod 100 =? 0
            then sendSerial ("SAVEDNUM " +:+ to_string frame') s1 else s1 in
  Some (set_worker (WPop (Some path) frame') s2).

(** Lines 249-259: the codec, the file name and its directory. *)
Definition start_encoder (frame : Z) (im : Mat) (s : State) : State :=
  let fcc := fourcc s in
  let cvfcc := VideoWriter_fourcc (char_at fcc 0) (char_at fcc 1)
                 (char_at fcc 2) (char_at fcc 3) in
  let fn := filename s in
  if String.eqb fn "" then
    set_worker (WThrown "Cannot save to an empty filename" im)
      (log LFATAL "Cannot save to an empty filename" s)
  else
    let fn := if Ascii.eqb (char_at fn 0) "/" then fn else PATHPREFIX +:+ fn in
    let cmd := "/bin/mkdir -p " +:+ substr_to_rfind fn "/" in
    let s1 := if system (env s) cmd =? 0 then s
              else log LERROR ("Error running [" +:+ cmd +:+ "] -- IGNORED") s in
    set_worker (WProbe frame im cvfcc fn) s1.

(** [std::ifstream ifs(tmp); ifs.is_open()], line 266 and the test of line
    267: the stream is open when a file of that name exists and the process
    can read it.  A name with no file, and a file that cannot be read, both
    leave it closed. *)
Definition ifstream_is_open (tmp : string) (s : State) : bool :=
  match disk s !! tmp with
  | Some _ => readable (env s) tmp
  | None => false
  end.

(** One turn of the loop at lines 262-269, and lines 272-282 when it is
    left. *)
Definition probe (frame : Z) (im : Mat) (cvfcc : Z) (fn : string) (s : State)
    : option State :=
  tmp ← snprintf 2047 fn (itsFileNum s);
  if ifstream_is_open tmp s then
    n ← incr_int (itsFileNum s); Some (set_itsFileNum n s)
  else
    let s1 := set_itsFilename tmp s in
    if encoder_open (env s1) tmp cvfcc (fps s1) (Mat_size im) then
      write_frame tmp frame im
        (sendSerial ("SAVETO " +:+ tmp) (writer_opened tmp cvfcc (Mat_size im) s1))
    else
      let what := "Failed to open video encoder for file [" +:+ tmp +:+ "]" in
      Some (set_worker (WThrown what im) (log LFATAL what s1)).

(** One atomic step of [run], lines 228-288.  [None]: the thread is blocked
    in [pop], or has ended, or the step has no defined behaviour. *)
Definition run_step (s : State) : option State :=
  match worker s with
  | WHead =>
    Some (set_worker (if itsRunning s then WPop None 0 else WReturned) s)
  | WPop writer frame =>
    match pop s with
    | Some (im, s1) => Some (set_worker (WGot writer frame im) s1)
    | None => None
    end
  | WGot writer frame im =>
    if Mat_empty im then
      n ← incr_int (itsFileNum s);
      Some (set_worker WHead (writer_destroyed writer (set_itsFileNum n s)))
    else
      match writer with
      | None => Some (start_encoder frame im s)
      | Some path => write_frame path frame im s
      end
  | WProbe frame im cvfcc fn => probe frame im cvfcc fn s
  | WNotStarted | WReturned | WThrown _ _ => None
  end.

(** ** Schedules *)

(** What can happen next: the engine calls into the module, or the thread
    it is in takes a step ([AMain]), or the writer thread does ([ARun]). *)
Inductive Action :=
| APostInit
| APostUninit
| AProcess (inimg outimg : RawImage)
| AProcessNoUsb (inimg : RawImage)
| AParseSerial (str : string)
| AMain
| ARun.

Definition when_free (s : State) (r : Result) : option State :=
  match main s with MFree => Some (state_of r) | _ => None end.

Definition step (a : Action) (s : State) : option State :=
  match a with
  | APostInit => match main s with MNew => Some (postInit s) | _ => None end
  | APostUninit => when_free s (Ok (postUninit s))
  | AProcess inimg outimg => when_free s (process inimg outimg s)
  | AProcessNoUsb inimg => when_free s (process_nousb inimg s)
  | AParseSerial str => when_free s (parseSerial str s)
  | AMain => main_step s
  | ARun => run_step s
  end.

Fixpoint exec (sched : list Action) (s : State) : option State :=
  match sched with
  | [] => Some s
  | a :: rest => s' ← step a s; exec rest s'
  end.

(** ** The list of commands *)

(** [std::endl] as it reaches the stream. *)
Definition endl : string := String (ascii_of_nat 10) EmptyString.

(** [supportedCommands(os)], lines 221-225: the text appended to [os]. *)
Definition supportedCommands (os : string) : string :=
  os +:+ "start - start saving video" +:+ endl
     +:+ "stop - stop saving video and increment video file number" +:+ endl.

(** ** The steps of [run] as a relation *)

(** The same steps as [run_step], one constructor for each path through the
    loop body, with the state each one leaves. *)
Inductive run_case (s : State) : State -> Prop :=
| run_head :
    worker s = WHead ->
    run_case s (set_worker (if itsRunning s then WPop None 0 else WReturned) s)
| run_pop writer frame im q :
    worker s = WPop writer frame ->
    itsBuf s = im :: q ->
    run_case s (set_worker (WGot writer frame im) (set_itsBuf q s))
| run_close writer frame im :
    worker s = WGot writer frame im ->
    Mat_empty im = true ->
    itsFileNum s < INT_MAX ->
    run_case s (set_worker WHead
                  (writer_destroyed writer (set_itsFileNum (itsFileNum s + 1) s)))
| run_start frame im :
    worker s = WGot None frame im ->
    Mat_empty im = false ->
    run_case s (start_encoder frame im s)
| run_write path frame im s' :
    worker s = WGot (Some path) frame im ->
    Mat_empty im = false ->
    write_frame path frame im s = Some s' ->
    run_case s s'
| run_skip frame im cvfcc fn tmp :
    worker s = WProbe frame im cvfcc fn ->
    snprintf 2047 fn (itsFileNum s) = Some tmp ->
    ifstream_is_open tmp s = true ->
    itsFileNum s < INT_MAX ->
    run_case s (set_itsFileNum (itsFileNum s + 1) s)
| run_open frame im cvfcc fn tmp s' :
    worker s = WProbe frame im cvfcc fn ->
    snprintf 2047 fn (itsFileNum s) = Some tmp ->
    ifstream_is_open tmp s = false ->
    encoder_open (env s) tmp cvfcc (fps s) (Mat_size im) = true ->
    write_frame tmp frame im
      (sendSerial ("SAVETO " +:+ tmp)
         (writer_opened tmp cvfcc (Mat_size im) (set_itsFilename tmp s))) = Some s' ->
    run_case s s'
| run_open_failed frame im cvfcc fn tmp :
    worker s = WProbe frame im cvfcc fn ->
    snprintf 2047 fn (itsFileNum s) = Some tmp ->
    ifstream_is_open tmp s = false ->
    encoder_open (env s) tmp cvfcc (fps s) (Mat_size im) = false ->
    run_case s
      (set_worker
         (WThrown ("Failed to open video encoder for file [" +:+ tmp +:+ "]") im)
         (log LFATAL ("Failed to open video encoder for file [" +:+ tmp +:+ "]")
            (set_itsFilename tmp s))).

(** ** Vocabulary of the properties *)

(** The image of a call of [writer <<]. *)
Definition frame_of (e : EncEvent) : option Mat :=
  match e with EncWrite _ im => Some im | _ => None end.

(** The images handed to [writer <<], oldest first. *)
Definition written (s : State) : list Mat := omap frame_of (encoder s).

(** The frame [run] has popped and not yet written. *)
Definition in_flight (s : State) : list Mat :=
  match worker s with
  | WGot _ _ im => if Mat_empty im then [] else [im]
  | WProbe _ im _ _ | WThrown _ im => [im]
  | _ => []
  end.

(** The frames waiting in the queue: its items other than the empty ones. *)
Definition queued (s : State) : list Mat :=
  List.filter (fun im => negb (Mat_empty im)) (itsBuf s).

(** The items an action of the engine thread appends to the queue. *)
Definition pushes (a : Action) (s : State) : list Mat :=
  match a with
  | AProcess inimg _ =>
    if require inimg (width inimg) (height inimg) V4L2_PIX_FMT_YUYV
       && itsSaving s && (filled_size s <=? 1000)
    then [convertToCvBGR (env s) inimg] else []
  | AProcessNoUsb inimg =>
    if itsSaving s && (filled_size s <=? 1000)
    then [convertToCvBGR (env s) inimg] else []
  | AParseSerial str => if String.eqb str "stop" then [Mat_default] else []
  | AMain => match main s with MUninitPush => [Mat_default] | _ => [] end
  | _ => []
  end.

(** In the words of the specification: the frame of an acquisition cycle is
    accepted into the queue when Recording State is true and the filled
    size is at or under the soft capacity. *)
Definition accepts (a : Action) (s : State) : list Mat :=
  match a with
  | AProcess inimg _ | AProcessNoUsb inimg =>
    if itsSaving s && (filled_size s <=? 1000)
    then [convertToCvBGR (env s) inimg] else []
  | _ => []
  end.

(** The frames accepted along a schedule, in the order of the cycles. *)
Fixpoint accepted (sched : list Action) (s : State) : list Mat :=
  match sched with
  | [] => []
  | a :: rest =>
    accepts a s ++ match step a s with
                   | Some s' => accepted rest s'
                   | None => []
                   end
  end.

(** An acquisition cycle on a frame of the camera: the image is in the
    format both overloads of [process] are written for, and its conversion
    is a picture, not the empty matrix. *)
Definition camera_frame (w : World) (a : Action) : Prop :=
  match a with
  | AProcess inimg _ =>
    require inimg (width inimg) (height inimg) V4L2_PIX_FMT_YUYV = true /\
    Mat_empty (convertToCvBGR w inimg) = false
  | AProcessNoUsb inimg => Mat_empty (convertToCvBGR w inimg) = false
  | _ => True
  end.

(** The two places of [run] that execute [++itsFileNum]: line 268, when
    [std::ifstream] opens the probed name, and line 286, when an empty image
    was popped. *)
Definition increments_counter (s : State) : bool :=
  match worker s with
  | WProbe _ _ _ fn =>
    match snprintf 2047 fn (itsFileNum s) with
    | Some tmp => ifstream_is_open tmp s
    | None => false
    end
  | WGot _ _ im => Mat_empty im
  | _ => false
  end.

(** How many steps of a schedule execute [++itsFileNum]. *)
Fixpoint count_increments (sched : list Action) (s : State) : nat :=
  match sched with
  | [] => O
  | a :: rest =>
    ((match a with ARun => if increments_counter s then 1 else 0 | _ => 0 end)
     + match step a s with
       | Some s' => count_increments rest s'
       | None => 0
       end)%nat
  end.

(** A call of [writer <<] with a picture. *)
Definition real_frame (e : EncEvent) : Prop :=
  match e with EncWrite _ im => Mat_empty im = false | _ => True end.

(** The image for which [run] is opening the encoder is a picture. *)
Definition holds_frame (s : State) : Prop :=
  match worker s with
  | WProbe _ im _ _ => Mat_empty im = false
  | _ => True
  end.

Definition no_sentinel_written (s : State) : Prop :=
  Forall real_frame (encoder s) /\ holds_frame s.

(** The engine thread is waiting inside [parseSerial("stop")]. *)
Definition in_stop (s : State) : Prop :=
  main s = MStopWait \/ main s = MStopReport.

(** A schedule on which only the two threads move: the engine makes no new
    call. *)
Definition threads_only (sched : list Action) : Prop :=
  Forall (fun a => a = AMain \/ a = ARun) sched.

(** ** A world and inputs to run the module on *)

(** The conversion keeps size and bytes, every command succeeds, the
    encoder opens every file, and every file can be read. *)
Definition quiet : World :=
  mkWorld (fun i => mkMat (height i) (width i) (pixels i))
          (fun _ => 0) (fun _ _ _ _ => true) (fun _ => true).

(** As [quiet], with an encoder that opens no file. *)
Definition no_codec : World :=
  mkWorld (fun i => mkMat (height i) (width i) (pixels i))
          (fun _ => 0) (fun _ _ _ _ => false) (fun _ => true).

(** A YUYV image of two pixels. *)
Definition yuyv (n : Z) : RawImage := mkRawImage 2 1 V4L2_PIX_FMT_YUYV [n].

Definition old_disk : gmap string VideoFile :=
  {[ "/jevois/data/savevideo/video000000.avi" := mkVideoFile [] true ]}.

(** The module with the default values of its parameters. *)
Definition fresh (w : World) (d : gmap string VideoFile) : State :=
  SaveVideo "video%06d.avi" "MJPG" (30 # 1) w d.

(** [start], then [stop] with no frame in between, until [run] is back in
    [pop]. *)
Definition start_stop : list Action :=
  [APostInit; ARun; AParseSerial "start"; AParseSerial "stop";
   ARun; AMain; ARun; ARun].

(** One session of one frame; the engine thread tests the queue right after
    [run] has popped the empty image. *)
Definition stop_race : list Action :=
  [APostInit; ARun; AParseSerial "start"; AProcessNoUsb (yuyv 1);
   ARun; ARun; ARun; AParseSerial "stop"; ARun; AMain].

(** Two sessions of one frame each, with the default file name. *)
Definition two_sessions : list Action :=
  [APostInit; ARun;
   AParseSerial "start"; AProcessNoUsb (yuyv 1); ARun; ARun; ARun; ARun;
   AParseSerial "stop"; ARun; ARun; AMain; ARun;
   AParseSerial "start"; AProcessNoUsb (yuyv 2); ARun; ARun; ARun;
   AParseSerial "stop"; ARun; ARun; AMain; ARun].

(** The state a schedule ends in; the first state when it cannot be run. *)
Definition final (sched : list Action) (s : State) : State :=
  default s (exec sched s).

(** The disk and the encoder calls after the destructor of [writer]. *)
Definition closed_disk (writer : option string) (d : gmap string VideoFile)
    : gmap string VideoFile :=
  match writer with
  | Some path => alter (fun f => mkVideoFile (frames f) true) path d
  | None => d
  end.

Definition closed_encoder (writer : option string) (e : list EncEvent)
    : list EncEvent :=
  match writer with
  | Some path => e ++ [EncRelease path]
  | None => e
  end.

(** Where the threads can be after [parseSerial("stop")] was called in
    [s0], with [run] waiting in [pop] on an empty queue, as long as the
    engine makes no new call: [run] has yet to pop the empty image, or
    holds it, or has left the session. *)
Definition stop_phase (s0 : State) (writer : option string) (frame : Z)
    (s : State) : Prop :=
  itsRunning s = true /\
  (in_stop s \/ main s = MFree /\ itsBuf s = []) /\
  ((worker s = WPop writer frame /\ itsBuf s = [Mat_default] \/
    worker s = WGot writer frame Mat_default /\ itsBuf s = []) /\
   itsFileNum s = itsFileNum s0 /\
   disk s = disk s0 /\ encoder s = encoder s0
   \/
   (worker s = WHead \/ worker s = WPop None 0) /\ itsBuf s = [] /\
   itsFileNum s = itsFileNum s0 + 1 /\
   disk s = closed_disk writer (disk s0) /\
   encoder s = closed_encoder writer (encoder s0)).

(** The module with an empty file name, and the default one in a world
    whose encoder fails, each run until [run] holds the first frame,
    respectively has built the path to probe. *)
Definition unnamed_session : State :=
  final [APostInit; ARun; AParseSerial "start"; AProcessNoUsb (yuyv 1); ARun]
        (SaveVideo "" "MJPG" (30 # 1) quiet ∅).

Definition no_codec_session : State :=
  final [APostInit; ARun; AParseSerial "start"; AProcessNoUsb (yuyv 1);
         ARun; ARun]
        (fresh no_codec ∅).

(** A session with no frame, before its [stop]. *)
Definition idle_session : State :=
  final [APostInit; ARun; AParseSerial "start"] (fresh quiet ∅).

(** A session of one frame, written, before its [stop]. *)
Definition one_frame_session : State :=
  final [APostInit; ARun; AParseSerial "start"; AProcessNoUsb (yuyv 1);
         ARun; ARun; ARun]
        (fresh quiet ∅).


(** The file [run] has open in its [cv::VideoWriter], if any. *)
Definition writer_of (s : State) : option string :=
  match worker s with
  | WPop writer _ | WGot writer _ _ => writer
  | _ => None
  end.

(** Everything written, held or waiting: the frames the module is
    answerable for. *)
Definition outstanding (s : State) : list Mat :=
  written s ++ in_flight s ++ queued s.

(** [run] is launched by [postInit] and not before. *)
Definition launched_by_postInit (s : State) : Prop :=
  main s = MNew -> worker s = WNotStarted.

(** A session whose first frame is written and with two more frames
    queued. *)
Definition busy_session : State :=
  final [AProcessNoUsb (yuyv 2); AProcessNoUsb (yuyv 3)] one_frame_session.

(** A session on [old_disk] whose first frame [run] holds, the path to
    probe built. *)
Definition probing_session : State :=
  final [APostInit; ARun; AParseSerial "start"; AProcessNoUsb (yuyv 1);
         ARun; ARun]
        (fresh quiet old_disk).

(** ** Vocabulary of further properties *)

(** The lines of a text, cut at each line feed. *)
Fixpoint lines_from (acc : string) (s : string) : list string :=
  match s with
  | EmptyString => if String.eqb acc "" then [] else [acc]
  | String c rest =>
    if Ascii.eqb c (ascii_of_nat 10) then acc :: lines_from "" rest
    else lines_from (acc +:+ String c EmptyString) rest
  end.

(** The first word of a line: its characters before the first space. *)
Fixpoint first_word (s : string) : string :=
  match s with
  | EmptyString => EmptyString
  | String c rest =>
    if Ascii.eqb c " " then EmptyString else String c (first_word rest)
  end.

(** The queue holds at most [n] items. *)
Definition queue_within (n : nat) (s : State) : Prop :=
  (length (itsBuf s) <= n)%nat.

(** Between calls, and in [postUninit] before its [push], the queue is
    within the bound of [process] plus the frame pushed last; inside the
    calls that have pushed an empty image it holds one item more. *)
Definition queue_bounded (s : State) : Prop :=
  queue_within 1002 s /\
  match main s with
  | MNew | MFree | MUninitPush => queue_within 1001 s
  | _ => True
  end.

(** [n] acquisition cycles on the same image. *)
Definition cycles (n : nat) (img : RawImage) : list Action :=
  replicate n (AProcessNoUsb img).

(** The session with an empty file name, after [run] has thrown. *)
Definition failed_session : State := final [ARun] unnamed_session.

(** A frame queued while [run] is still between two sessions, and then
    [postUninit]: one frame is recorded and [stop] returns as in
    [stop_race]; recording starts again and a second frame is queued;
    [postUninit] clears the running flag; [run] ends the first session and
    is at the head of its loop. *)
Definition late_frame : list Action :=
  stop_race ++ [AParseSerial "start"; AProcessNoUsb (yuyv 2);
                APostUninit; ARun].

(** [stop] is waiting and [run] has thrown, with something in the queue. *)
Definition stop_stuck (what : string) (im : Mat) (s : State) : Prop :=
  in_stop s /\ worker s = WThrown what im /\ itsBuf s <> [].

(** The numbers the frames of a session get, after [frame] of them. *)
Definition frame_numbers (frame : Z) (n : nat) : list Z :=
  (fun i => frame + 1 + Z.of_nat i) <$> seq 0 n.

(** The progress messages due for these frames: one for each multiple of
    100. *)
Definition progress_reports (frame : Z) (n : nat) : list string :=
  (fun k => "SAVEDNUM " +:+ to_string k)
    <$> List.filter (fun k => k mod 100 =? 0) (frame_numbers frame n).

(** [s] without its prefix [p], when it has it. *)
Fixpoint strip_prefix (p s : string) : option string :=
  match p with
  | EmptyString => Some s
  | String a p' =>
    match s with
    | String b s' => if Ascii.eqb a b then strip_prefix p' s' else None
    | EmptyString => None
    end
  end.

(** The files announced on the serial port. *)
Definition announced (s : State) : list string :=
  omap (strip_prefix "SAVETO ") (serial s).

(** The path of a call of [writer.open]. *)
Definition path_of (e : EncEvent) : option string :=
  match e with EncOpen path _ _ _ => Some path | _ => None end.

(** The files the encoder was opened on, oldest first. *)
Definition opened (s : State) : list string := omap path_of (encoder s).

(** One session of [n] frames on the same image, queued before [run]
    writes the first: [start], the cycles, then [run] until it has opened
    the file and written one frame. *)
Definition long_session (n : nat) : State :=
  final ([APostInit; ARun; AParseSerial "start"] ++ cycles n (yuyv 1)
         ++ [ARun; ARun; ARun])
        (fresh quiet ∅).

(** The life of a [cv::VideoWriter] as its caller must respect it: closed;
    opened on a path for frames of a given size, nothing written yet; or
    writing to a path. *)
Inductive EncState :=
| EncClosed
| EncOpened (path : string) (dims : nat * nat)
| EncWriting (path : string).

(** One call to the encoder, checked and applied to the files, where
    [can_read] tells the names whose file the process can read: a file is
    opened only while none is open, and not on a file that exists and can
    be read; opening starts the file anew, whatever was under that name;
    the first frame follows, a picture of the size given at the opening;
    pictures are written to the open file only; and only a file that has
    frames is released. *)
Definition enc_call (can_read : string -> bool)
    (st : EncState * gmap string VideoFile) (e : EncEvent)
    : option (EncState * gmap string VideoFile) :=
  match st.1, e with
  | EncClosed, EncOpen path _ _ dims =>
    let anew := Some (EncOpened path dims,
                      <[path := mkVideoFile [] false]> st.2) in
    match st.2 !! path with
    | None => anew
    | Some _ => if can_read path then None else anew
    end
  | EncOpened path dims, EncWrite path' im =>
    if String.eqb path path' && negb (Mat_empty im)
       && bool_decide (Mat_size im = dims)
    then Some (EncWriting path,
               alter (fun f => mkVideoFile (frames f ++ [im]) (finalized f))
                     path st.2)
    else None
  | EncWriting path, EncWrite path' im =>
    if String.eqb path path' && negb (Mat_empty im)
    then Some (EncWriting path,
               alter (fun f => mkVideoFile (frames f ++ [im]) (finalized f))
                     path st.2)
    else None
  | EncWriting path, EncRelease path' =>
    if String.eqb path path'
    then Some (EncClosed,
               alter (fun f => mkVideoFile (frames f) true) path st.2)
    else None
  | _, _ => None
  end.

(** A sequence of calls, checked and applied in order. *)
Definition replay (can_read : string -> bool) (calls : list EncEvent)
    (st : EncState * gmap string VideoFile)
    : option (EncState * gmap string VideoFile) :=
  foldl (fun acc e => acc ≫= fun st' => enc_call can_read st' e) (Some st)
        calls.

(** The encoder as [run] holds it. *)
Definition enc_state_of (s : State) : EncState :=
  match writer_of s with
  | Some path => EncWriting path
  | None => EncClosed
  end.

(** The calls made so far respect the life of the encoder and account for
    the whole disk. *)
Definition protocol_kept (d : gmap string VideoFile) (s : State) : Prop :=
  replay (readable (env s)) (encoder s) (EncClosed, d)
  = Some (enc_state_of s, disk s).

(** Line 255: a relative file name goes under [PATHPREFIX]. *)
Definition resolved (fn : string) : string :=
  if Ascii.eqb (char_at fn 0) "/" then fn else PATHPREFIX +:+ fn.

(** Line 250: the code of the configured codec. *)
Definition fourcc_code (fcc : string) : Z :=
  VideoWriter_fourcc (char_at fcc 0) (char_at fcc 1) (char_at fcc 2)
                     (char_at fcc 3).

(** A call of [writer.open] with the configured codec and rate, on the
    configured name formatted with a value the counter has had. *)
Definition opened_as_configured (s : State) (e : EncEvent) : Prop :=
  match e with
  | EncOpen path cvfcc rate _ =>
    cvfcc = fourcc_code (fourcc s) /\ rate = fps s /\
    exists n, 0 <= n <= itsFileNum s /\
              snprintf 2047 (resolved (filename s)) n = Some path
  | _ => True
  end.

(** While [run] probes, it probes the configured name. *)
Definition probes_configured_name (s : State) : Prop :=
  match worker s with
  | WProbe _ _ cvfcc fn =>
    fn = resolved (filename s) /\ cvfcc = fourcc_code (fourcc s)
  | _ => True
  end.

Definition names_kept (s : State) : Prop :=
  0 <= itsFileNum s /\ probes_configured_name s /\
  Forall (opened_as_configured s) (encoder s).

(** Where the threads can be after [postUninit] was called in [s0] with
    the encoder open on [path] and the frames [frames] queued: [run] is
    still writing them ([past] are written, [rest] are not, the empty image
    is queued behind them once line 118 has run), or holds the empty image,
    or has released the encoder. *)
Inductive shutdown_phase (s0 : State) (path : string) (frames : list Mat)
    (s : State) : Prop :=
| sp_draining past rest tail frame :
    frames = (past ++ rest)%list ->
    encoder s = (encoder s0 ++ (EncWrite path <$> past))%list ->
    (main s = MUninitPush /\ tail = [] \/
     (main s = MUninitLog \/ main s = MJoin) /\ tail = [Mat_default]) ->
    (worker s = WPop (Some path) frame /\ itsBuf s = (rest ++ tail)%list \/
     exists im rest', rest = im :: rest' /\
       worker s = WGot (Some path) frame im /\
       itsBuf s = (rest' ++ tail)%list) ->
    shutdown_phase s0 path frames s
| sp_closing frame :
    worker s = WGot (Some path) frame Mat_default ->
    itsBuf s = [] ->
    main s = MUninitLog \/ main s = MJoin ->
    encoder s = (encoder s0 ++ (EncWrite path <$> frames))%list ->
    shutdown_phase s0 path frames s
| sp_closed :
    (worker s = WHead /\ (main s = MUninitLog \/ main s = MJoin) \/
     worker s = WReturned /\
     (main s = MUninitLog \/ main s = MJoin \/ main s = MDone)) ->
    itsBuf s = [] ->
    encoder s = (encoder s0 ++ (EncWrite path <$> frames)
                 ++ [EncRelease path])%list ->
    shutdown_phase s0 path frames s.

(** The schedule on which [postUninit] runs to its [get], [run] writes [n]
    frames, handles the empty image and returns, and [postUninit] ends. *)
Definition shutdown_schedule (n : nat) : list Action :=
  [APostUninit; AMain; AMain] ++ replicate (2 * n + 3) ARun ++ [AMain].

(** The four characters of a codec code, lowest byte first. *)
Definition fourcc_chars (code : Z) : string :=
  String (ascii_of_nat (Z.to_nat (Z.land code 255)))
    (String (ascii_of_nat (Z.to_nat (Z.land (Z.shiftr code 8) 255)))
       (String (ascii_of_nat (Z.to_nat (Z.land (Z.shiftr code 16) 255)))
          (String (ascii_of_nat (Z.to_nat (Z.land (Z.shiftr code 24) 255)))
             EmptyString))).

(** The command of line 258 for a resolved file name. *)
Definition mkdir_command (fn : string) : string :=
  "/bin/mkdir -p " +:+ substr_to_rfind fn "/".

(** A string with no slash. *)
Fixpoint no_slash (s : string) : bool :=
  match s with
  | EmptyString => true
  | String c rest => negb (Ascii.eqb c "/") && no_slash rest
  end.

(** The count [run] keeps of the frames of its session agrees with the
    file: with an encoder open the file is on disk, not finalized, and
    holds as many frames as counted; with none open the count is zero. *)
Definition count_matches_file (s : State) : Prop :=
  match worker s with
  | WPop (Some path) frame | WGot (Some path) frame _ =>
    exists vf, disk s !! path = Some vf /\ finalized vf = false /\
               Z.of_nat (length (frames vf)) = frame
  | WPop None frame | WGot None frame _ | WProbe frame _ _ _ => frame = 0
  | _ => True
  end.

(** [itsFilename] names the file opened last, if any, unless [run] has
    thrown on the name it holds. *)
Definition names_last_opened (s : State) : Prop :=
  match worker s with
  | WThrown _ _ => True
  | _ => itsFilename s = default "" (last (opened s))
  end.

(** As [quiet], but no file can be read. *)
Definition locked : World :=
  mkWorld (fun i => mkMat (height i) (width i) (pixels i))
          (fun _ => 0) (fun _ _ _ _ => true) (fun _ => false).

(** An earlier recording of one frame under the first default name. *)
Definition recorded_disk : gmap string VideoFile :=
  {[ "/jevois/data/savevideo/video000000.avi"
       := mkVideoFile [mkMat 1 2 [9]] true ]}.

(** One session of one frame whose first name is taken at once, until
    [stop] has returned and [run] is back in [pop]. *)
Definition one_session : list Action :=
  [APostInit; ARun;
   AParseSerial "start"; AProcessNoUsb (yuyv 1); ARun; ARun; ARun;
   AParseSerial "stop"; ARun; ARun; AMain; ARun].

(** A frame accepted before [run] has made its first test of the running
    flag, and then [postUninit], until both threads have ended. *)
Definition early_shutdown : list Action :=
  [APostInit; AParseSerial "start"; AProcessNoUsb (yuyv 1);
   APostUninit; ARun; AMain; AMain; AMain].

(** [late_frame], until both threads have ended. *)
Definition late_shutdown : list Action :=
  late_frame ++ [ARun; AMain; AMain; AMain].

(** ** Proof tools *)

(** Case analysis on an innermost [match] or [if]. *)
Ltac break_inner :=
  match goal with
  | |- context [match ?x with _ => _ end] =>
    lazymatch x with
    | context [match _ with _ => _ end] => fail
    | _ => destruct x eqn:?
    end
  | H : context [match ?x with _ => _ end] |- _ =>
    lazymatch x with
    | context [match _ with _ => _ end] => fail
    | _ => destruct x eqn:?
    end
  end.

Ltac break_all := repeat (break_inner; simpl in *; simplify_eq).

(** Facts about a run of the model on given inputs, by evaluation. *)
Ltac by_evaluation :=
  repeat match goal with |- _ /\ _ => split end; vm_compute; reflexivity.

Lemma incr_int_Some n m : incr_int n = Some m <-> m = n + 1 /\ n < INT_MAX.
Proof.
  unfold incr_int. destruct (Z.ltb_spec n INT_MAX); split; intros H';
    simplify_eq; try done; destruct H'; subst; try done; lia.
Qed.

Lemma incr_int_lt n : n < INT_MAX -> incr_int n = Some (n + 1).
Proof. intros H. by apply incr_int_Some. Qed.

(** ** What each piece of [run] changes *)

Lemma write_frame_Some path frame im s s' :
  write_frame path frame im s = Some s' ->
  frame < INT_MAX /\
  worker s' = WPop (Some path) (frame + 1) /\
  encoder s' = (encoder s ++ [EncWrite path im])%list /\
  disk s' = alter (fun f => mkVideoFile (frames f ++ [im]) (finalized f))
              path (disk s) /\
  itsBuf s' = itsBuf s /\ itsFileNum s' = itsFileNum s /\
  itsFilename s' = itsFilename s /\ main s' = main s /\ env s' = env s /\
  itsRunning s' = itsRunning s /\ itsSaving s' = itsSaving s.
Proof.
  unfold write_frame. intros H.
  destruct (incr_int frame) as [frame'|] eqn:Hf; simpl in H; [|done].
  apply incr_int_Some in Hf as [-> Hlt]. simplify_eq.
  by destruct (_ =? 0).
Qed.

Lemma write_frame_lt path frame im s :
  frame < INT_MAX -> is_Some (write_frame path frame im s).
Proof. intros H. unfold write_frame. rewrite (incr_int_lt _ H). simpl. eauto. Qed.

Lemma start_encoder_effect frame im s :
  let s' := start_encoder frame im s in
  (worker s' = WThrown "Cannot save to an empty filename" im /\ filename s = ""
   \/ exists cvfcc fn, worker s' = WProbe frame im cvfcc fn /\ filename s <> "") /\
  encoder s' = encoder s /\ disk s' = disk s /\
  itsBuf s' = itsBuf s /\ itsFileNum s' = itsFileNum s /\
  itsFilename s' = itsFilename s /\ main s' = main s /\ env s' = env s /\
  itsRunning s' = itsRunning s /\ itsSaving s' = itsSaving s.
Proof.
  unfold start_encoder. destruct (String.eqb_spec (filename s) "") as [->|Hne].
  - simpl. split; [by left | done].
  - destruct (_ =? 0); simpl; (split; [right; eauto | done]).
Qed.

Lemma run_step_case s s' : run_step s = Some s' <-> run_case s s'.
Proof.
  split.
  - unfold run_step, probe, pop. intros H.
    destruct (worker s) eqn:Hw; try done.
    + simplify_eq. by constructor.
    + destruct (itsBuf s) eqn:Hq; simplify_eq. by econstructor.
    + destruct (Mat_empty im) eqn:He.
      * destruct (incr_int _) eqn:Hn; simpl in H; simplify_eq.
        apply incr_int_Some in Hn as [-> Hlt]. by econstructor.
      * destruct writer; simplify_eq; by econstructor.
    + destruct (snprintf _ _ _) as [tmp|] eqn:Ht; simpl in H; [|done].
      destruct (ifstream_is_open tmp s) eqn:Hd.
      * destruct (incr_int _) eqn:Hn; simpl in H; simplify_eq.
        apply incr_int_Some in Hn as [-> Hlt]. by econstructor.
      * simpl in H. destruct (encoder_open _ _ _ _ _) eqn:Ho.
        -- by eapply run_open.
        -- simplify_eq. by eapply run_open_failed.
  - unfold run_step, probe, pop.
    destruct 1 as [Hw|???? Hw Hq|??? Hw He Hlt|?? Hw He|???? Hw He Hwr
                   |????? Hw Ht Hd Hlt|?????? Hw Ht Hd Ho Hwr|????? Hw Ht Hd Ho];
      rewrite Hw; try done.
    + by rewrite Hq.
    + by rewrite He, (incr_int_lt _ Hlt).
    + by rewrite He.
    + by rewrite He.
    + by rewrite Ht; simpl; rewrite Hd, (incr_int_lt _ Hlt).
    + by rewrite Ht; simpl; rewrite Hd; simpl; rewrite Ho.
    + by rewrite Ht; simpl; rewrite Hd; simpl; rewrite Ho.
Qed.

(** ** What the engine thread changes *)

Lemma run_or_engine (a : Action) : a = ARun \/ a <> ARun.
Proof. destruct a; auto. Qed.

Lemma sync_and_report_effect s :
  let s' := sync_and_report s in
  worker s' = worker s /\ encoder s' = encoder s /\ disk s' = disk s /\
  itsBuf s' = itsBuf s /\ itsFileNum s' = itsFileNum s /\
  itsFilename s' = itsFilename s /\ main s' = main s /\ env s' = env s /\
  itsRunning s' = itsRunning s /\ itsSaving s' = itsSaving s.
Proof. unfold sync_and_report. by destruct (_ =? 0). Qed.

Lemma engine_step a s s' :
  a <> ARun ->
  step a s = Some s' ->
  itsBuf s' = (itsBuf s ++ pushes a s)%list /\
  worker s' = match a with APostInit => WHead | _ => worker s end /\
  encoder s' = encoder s /\ disk s' = disk s /\
  itsFileNum s' = itsFileNum s /\ env s' = env s.
Proof.
  intros Ha H. destruct a; try done; simpl in *;
    unfold when_free, process, process_nousb, parseSerial, main_step,
      sync_and_report, filled_size in *.
  - break_all. by rewrite app_nil_r.
  - break_all. by rewrite app_nil_r.
  - destruct (main s); try done. simplify_eq.
    destruct (require inimg _ _ _); simpl; [|by rewrite app_nil_r].
    destruct (itsSaving s); simpl.
    + rewrite Z.leb_antisym.
      destruct (1000 <? _); simpl; break_all; by rewrite ?app_nil_r.
    + break_all; by rewrite ?app_nil_r.
  - destruct (main s); try done. simplify_eq.
    destruct (itsSaving s); simpl.
    + rewrite Z.leb_antisym.
      destruct (1000 <? _); simpl; by rewrite ?app_nil_r.
    + by rewrite ?app_nil_r.
  - destruct (main s); try done.
    destruct (String.eqb_spec str "start") as [->|_]; simplify_eq.
    { simpl. by rewrite app_nil_r. }
    destruct (str =? "stop")%string; simpl; by rewrite ?app_nil_r.
  - break_all; by rewrite ?app_nil_r.
Qed.

(** ** The acquisition path *)

(** C8. While Recording State is false a cycle enqueues nothing: the overload
    without video output leaves the whole state as it was, and the overload
    with video output leaves the queue as it was and changes the state, if at
    all, only by sending one output image, which carries the camera image. *)
Theorem process_while_not_recording (inimg outimg : RawImage) (s : State) :
  itsSaving s = false ->
  process_nousb inimg s = Ok s /\
  itsBuf (state_of (process inimg outimg s)) = itsBuf s /\
  (state_of (process inimg outimg s) = s \/
   exists lines, process inimg outimg s = Ok (send (mkOutImage inimg lines) s)).
Proof.
  intros Hs. unfold process_nousb, process. rewrite Hs.
  repeat split.
  - destruct (require inimg _ _ _); simpl; [|done].
    destruct (require outimg _ _ _); simpl; done.
  - destruct (require inimg _ _ _); simpl; [|by left].
    destruct (require outimg _ _ _); simpl; [|by left].
    right. rewrite Hs. eauto.
Qed.

Lemma process_while_not_recording_witness :
  itsSaving (fresh quiet ∅) = false /\
  process_nousb (yuyv 1) (fresh quiet ∅) = Ok (fresh quiet ∅) /\
  itsBuf (state_of (process (yuyv 1) (yuyv 0) (fresh quiet ∅))) = [].
Proof.
  split; [reflexivity|].
  destruct (process_while_not_recording (yuyv 1) (yuyv 0) (fresh quiet ∅))
    as (Ha & Hb & _); [reflexivity|].
  split; [exact Ha | exact Hb].
Defined.

(** C7. While Recording State is true a cycle drops the frame when the
    filled size exceeds 1000: the queue is as it was, the error is logged,
    and the call returns without an exception.  Otherwise the converted frame
    is appended to the queue, and the call returns as well.  For the overload
    without video output this holds for every image; the overload with video
    output reaches line 143 when the camera image passes the requirement of
    line 141, then does the same, and returns normally when the output
    buffer conforms. *)
Theorem process_while_recording (inimg outimg : RawImage) (s : State) :
  itsSaving s = true ->
  let frame := convertToCvBGR (env s) inimg in
  let s' := state_of (process inimg outimg s) in
  (1000 < filled_size s ->
     process_nousb inimg s = Ok (log LERROR QUEUE_TOO_LARGE s)) /\
  (filled_size s <= 1000 ->
     process_nousb inimg s = Ok (push frame s)) /\
  (require inimg (width inimg) (height inimg) V4L2_PIX_FMT_YUYV = true ->
     (1000 < filled_size s ->
        itsBuf s' = itsBuf s /\
        logs s' = (logs s ++ [(LERROR, QUEUE_TOO_LARGE)])%list) /\
     (filled_size s <= 1000 ->
        itsBuf s' = (itsBuf s ++ [frame])%list /\ logs s' = logs s) /\
     (require outimg (width inimg) (height inimg) V4L2_PIX_FMT_YUYV = true ->
        exists s'', process inimg outimg s = Ok s'')).
Proof.
  intros Hs. cbv zeta. unfold process_nousb, process. rewrite Hs.
  split; [|split].
  - intros H. apply Z.ltb_lt in H. by rewrite H.
  - intros H. apply Z.ltb_ge in H. by rewrite H.
  - intros ->. simpl. split; [|split].
    + intros H. apply Z.ltb_lt in H. rewrite H.
      by destruct (require outimg _ _ _).
    + intros H. apply Z.ltb_ge in H. rewrite H.
      by destruct (require outimg _ _ _).
    + intros ->. simpl. eauto.
Qed.

Lemma process_while_recording_witness :
  itsSaving (set_itsSaving true (fresh quiet ∅)) = true /\
  process_nousb (yuyv 1) (set_itsSaving true (fresh quiet ∅))
  = Ok (push (mkMat 1 2 [1]) (set_itsSaving true (fresh quiet ∅))) /\
  itsBuf (state_of (process (yuyv 1) (yuyv 0)
                      (set_itsSaving true (fresh quiet ∅))))
  = [mkMat 1 2 [1]].
Proof.
  split; [reflexivity|].
  destruct (process_while_recording (yuyv 1) (yuyv 0)
              (set_itsSaving true (fresh quiet ∅)))
    as (_ & Hb & Hc); [reflexivity|].
  split.
  - apply Hb. vm_compute. discriminate.
  - destruct Hc as (_ & Hpush & _); [reflexivity|].
    destruct Hpush as [Hq _]; [vm_compute; discriminate|].
    exact Hq.
Defined.

(** ** The file sequence counter *)

Lemma run_case_counter s s' :
  run_case s s' ->
  itsFileNum s' = itsFileNum s + (if increments_counter s then 1 else 0).
Proof.
  unfold increments_counter.
  destruct 1 as [Hw|???? Hw Hq|??? Hw He Hlt|?? Hw He|???? Hw He Hwr
                 |????? Hw Ht Hd Hlt|?????? Hw Ht Hd Ho Hwr|????? Hw Ht Hd Ho];
    rewrite Hw; simpl.
  - lia.
  - lia.
  - rewrite He. by destruct writer.
  - rewrite He. destruct (start_encoder_effect frame im s) as (_&_&_&_&->&_). lia.
  - rewrite He. apply write_frame_Some in Hwr as (_&_&_&_&_&->&_). lia.
  - by rewrite Ht, Hd.
  - rewrite Ht, Hd.
    apply write_frame_Some in Hwr as (_&_&_&_&_&->&_). simpl. lia.
  - rewrite Ht, Hd. simpl. lia.
Qed.

Lemma step_counter a s s' :
  step a s = Some s' ->
  itsFileNum s' = itsFileNum s
    + match a with
      | ARun => if increments_counter s then 1 else 0
      | _ => 0
      end.
Proof.
  intros H. destruct (run_or_engine a) as [->|Ha].
  - simpl in H. apply run_step_case in H. by apply run_case_counter.
  - apply engine_step in H as (_&_&_&_&->&_); [|done].
    destruct a; try done; lia.
Qed.

(** C5. Along every schedule the counter ends at its first value plus the
    number of steps that executed [++itsFileNum], which are steps of [run] at
    line 268 ([std::ifstream] opens the probed name) or at line 286 (an empty
    image was popped); so it never decreases and is never reset. *)
Theorem counter_never_decreases (sched : list Action) (s s' : State) :
  exec sched s = Some s' ->
  itsFileNum s' = itsFileNum s + Z.of_nat (count_increments sched s) /\
  itsFileNum s <= itsFileNum s'.
Proof.
  intros H. enough (itsFileNum s' = itsFileNum s + Z.of_nat (count_increments sched s)) by lia.
  revert s H. induction sched as [|a sched IH]; simpl; intros s H.
  - simplify_eq. lia.
  - destruct (step a s) as [s1|] eqn:Hs; simpl in H; [|done].
    apply IH in H. apply step_counter in Hs. rewrite H, Hs.
    destruct a; try lia. destruct (increments_counter s); lia.
Qed.

Lemma counter_never_decreases_witness :
  exists s', exec two_sessions (fresh quiet old_disk) = Some s' /\
             itsFileNum s' = 3 /\
             count_increments two_sessions (fresh quiet old_disk) = 3%nat /\
             itsFileNum (fresh quiet old_disk) <= itsFileNum s'.
Proof.
  destruct (exec two_sessions (fresh quiet old_disk)) as [s'|] eqn:He;
    [|vm_compute in He; discriminate].
  exists s'. split; [reflexivity|].
  destruct (counter_never_decreases _ _ _ He) as [Hc Hle].
  assert (Hn : count_increments two_sessions (fresh quiet old_disk) = 3%nat)
    by (vm_compute; reflexivity).
  rewrite Hn in Hc. repeat split; [exact Hc | exact Hle].
Defined.

(** ** The empty image *)

Lemma run_case_fields s s' :
  run_case s s' ->
  main s' = main s /\ itsRunning s' = itsRunning s /\ env s' = env s /\
  itsSaving s' = itsSaving s.
Proof.
  destruct 1 as [Hw|???? Hw Hq|??? Hw He Hlt|?? Hw He|???? Hw He Hwr
                 |????? Hw Ht Hd Hlt|?????? Hw Ht Hd Ho Hwr|????? Hw Ht Hd Ho];
    try done.
  - by destruct writer.
  - destruct (start_encoder_effect frame im s) as (_&_&_&_&_&_&?&?&?&?). done.
  - apply write_frame_Some in Hwr as (_&_&_&_&_&_&_&?&?&?&?). done.
  - apply write_frame_Some in Hwr as (_&_&_&_&_&_&_&?&?&?&?). done.
Qed.

Lemma writer_destroyed_effect writer s :
  let s' := writer_destroyed writer s in
  disk s' = closed_disk writer (disk s) /\
  encoder s' = closed_encoder writer (encoder s) /\
  itsBuf s' = itsBuf s /\ itsFileNum s' = itsFileNum s /\
  worker s' = worker s.
Proof. by destruct writer. Qed.

Lemma run_case_no_sentinel_written s s' :
  run_case s s' -> no_sentinel_written s -> no_sentinel_written s'.
Proof.
  unfold no_sentinel_written, holds_frame. intros H [Henc Hfr].
  destruct H as [Hw|???? Hw Hq|??? Hw He Hlt|?? Hw He|???? Hw He Hwr
                 |????? Hw Ht Hd Hlt|?????? Hw Ht Hd Ho Hwr|????? Hw Ht Hd Ho];
    rewrite ?Hw in Hfr; simpl; rewrite ?Hw.
  - by destruct (itsRunning s).
  - done.
  - split; [|done]. destruct writer; simpl; [|done].
    apply Forall_app. by repeat constructor.
  - destruct (start_encoder_effect frame im s)
      as ([[-> _]|(?&?&->&_)]&->&_); done.
  - apply write_frame_Some in Hwr as (_&->&->&_). split; [|done].
    apply Forall_app. by repeat constructor.
  - done.
  - apply write_frame_Some in Hwr as (_&->&->&_). split; [|done].
    simpl. rewrite !Forall_app. by repeat constructor.
  - done.
Qed.

Lemma step_no_sentinel_written a s s' :
  step a s = Some s' -> no_sentinel_written s -> no_sentinel_written s'.
Proof.
  intros H. destruct (run_or_engine a) as [->|Ha].
  - apply run_step_case in H. by apply run_case_no_sentinel_written.
  - apply engine_step in H as (_&Hw&He&_); [|done].
    unfold no_sentinel_written, holds_frame. rewrite Hw, He.
    intros [? ?]. split; [done|]. by destruct a.
Qed.

Lemma exec_no_sentinel_written sched s s' :
  exec sched s = Some s' -> no_sentinel_written s -> no_sentinel_written s'.
Proof.
  revert s. induction sched as [|a sched IH]; simpl; intros s H Hs.
  - by simplify_eq.
  - destruct (step a s) as [s1|] eqn:Hs1; simpl in H; [|done].
    eauto using step_no_sentinel_written.
Qed.

(** C6. From the constructed module on, whatever the schedule, every image
    handed to the encoder is a picture: the empty image is never written.
    And once [run] holds an empty image, its next step ends the session: it
    pops nothing more and writes nothing more, the encoder is released if
    it was open, and [run] is back at the head of its outer loop. *)
Theorem sentinel_never_written (fn fcc : string) (rate : Q) (w : World)
    (d : gmap string VideoFile) (sched : list Action) (s : State) :
  exec sched (SaveVideo fn fcc rate w d) = Some s ->
  Forall real_frame (encoder s) /\
  (forall writer frame im,
     worker s = WGot writer frame im -> Mat_empty im = true ->
     itsFileNum s < INT_MAX ->
     exists s', run_step s = Some s' /\ worker s' = WHead /\
                itsBuf s' = itsBuf s /\ written s' = written s /\
                encoder s' = closed_encoder writer (encoder s)).
Proof.
  intros H. split.
  - apply exec_no_sentinel_written in H as [? _]; [done|].
    split; [constructor | exact I].
  - intros writer frame im Hw He Hlt. eexists. split.
    + apply run_step_case. by eapply run_close.
    + unfold written. destruct writer; simpl; repeat split; try done.
      by rewrite omap_app, app_nil_r.
Qed.

Lemma sentinel_never_written_witness :
  exec stop_race (fresh quiet ∅) = Some (final stop_race (fresh quiet ∅)) /\
  Forall real_frame (encoder (final stop_race (fresh quiet ∅))) /\
  exists s', run_step (final stop_race (fresh quiet ∅)) = Some s' /\
             worker s' = WHead.
Proof.
  assert (He : exec stop_race (fresh quiet ∅)
               = Some (final stop_race (fresh quiet ∅)))
    by (vm_compute; reflexivity).
  split; [exact He|].
  destruct (sentinel_never_written _ _ _ _ _ _ _ He) as [Ha Hb].
  split; [exact Ha|].
  destruct (Hb (Some "/jevois/data/savevideo/video000000.avi") 1 Mat_default)
    as (s' & Hs & Hw & _); [vm_compute; reflexivity..|].
  exists s'. split; [exact Hs | exact Hw].
Defined.

(** ** Failures when the session is opened *)

Lemma step_main_started a s s' :
  step a s = Some s' -> main s <> MNew -> main s' <> MNew.
Proof.
  intros H Hm. destruct (run_or_engine a) as [->|Ha].
  { apply run_step_case, run_case_fields in H as (->&_). done. }
  destruct a; simpl in H; try done;
    unfold when_free, main_step, process, process_nousb, parseSerial,
      sync_and_report in H;
    destruct (main s) eqn:Hms; simplify_eq;
    repeat (break_inner; simpl; simplify_eq); rewrite ?Hms; done.
Qed.

Lemma thrown_forever what im sched s s' :
  worker s = WThrown what im -> main s <> MNew ->
  exec sched s = Some s' ->
  worker s' = WThrown what im /\ encoder s' = encoder s /\ disk s' = disk s.
Proof.
  revert s. induction sched as [|a sched IH]; simpl; intros s Hw Hm H.
  - by simplify_eq.
  - destruct (step a s) as [s1|] eqn:Hs1; simpl in H; [|done].
    destruct (run_or_engine a) as [->|Ha].
    { simpl in Hs1. unfold run_step in Hs1. by rewrite Hw in Hs1. }
    assert (Hm1 : main s1 <> MNew) by eauto using step_main_started.
    assert (Hi : a <> APostInit).
    { intros ->. simpl in Hs1. by destruct (main s). }
    apply engine_step in Hs1 as (_&Hw1&He1&Hd1&_); [|done].
    assert (Hw1' : worker s1 = WThrown what im).
    { rewrite Hw1. by destruct a. }
    destruct (IH s1 Hw1' Hm1 H) as (?&?&?). by rewrite <- He1, <- Hd1.
Qed.

(** C9. When [run] holds the first picture of a session and no encoder is
    open, an empty file name ends [run] with the exception of [LFATAL]; so
    does, once a name is found that [std::ifstream] does not open, an
    encoder that fails to open.  In both cases nothing is handed to the
    encoder and no file appears.  And once [run] has thrown it takes no step
    again: whatever is scheduled later, no frame is written and no file
    changes. *)
Theorem session_open_failures_are_fatal (s : State) (frame : Z) (im : Mat) :
  Mat_empty im = false ->
  (worker s = WGot None frame im -> filename s = "" ->
   exists s', run_step s = Some s' /\
     worker s' = WThrown "Cannot save to an empty filename" im /\
     last (logs s') = Some (LFATAL, "Cannot save to an empty filename") /\
     encoder s' = encoder s /\ disk s' = disk s) /\
  (forall cvfcc fn tmp,
     worker s = WProbe frame im cvfcc fn ->
     snprintf 2047 fn (itsFileNum s) = Some tmp ->
     ifstream_is_open tmp s = false ->
     encoder_open (env s) tmp cvfcc (fps s) (Mat_size im) = false ->
     exists s' what, run_step s = Some s' /\
       what = "Failed to open video encoder for file [" +:+ tmp +:+ "]" /\
       worker s' = WThrown what im /\
       last (logs s') = Some (LFATAL, what) /\
       encoder s' = encoder s /\ disk s' = disk s) /\
  (forall what sched s',
     worker s = WThrown what im -> main s <> MNew ->
     run_step s = None /\
     (exec sched s = Some s' ->
      worker s' = WThrown what im /\ written s' = written s /\
      encoder s' = encoder s /\ disk s' = disk s)).
Proof.
  intros He. split; [|split].
  - intros Hw Hfn. exists (start_encoder frame im s). split.
    + apply run_step_case. by apply run_start.
    + unfold start_encoder. rewrite Hfn. simpl.
      by rewrite last_snoc.
  - intros cvfcc fn tmp Hw Ht Hd Ho. eexists _, _. split.
    + apply run_step_case. by eapply run_open_failed.
    + simpl. by rewrite last_snoc.
  - intros what sched s' Hw Hm. split.
    + unfold run_step. by rewrite Hw.
    + intros Hx. destruct (thrown_forever _ _ _ _ _ Hw Hm Hx) as (?&Henc&?).
      unfold written. by rewrite Henc.
Qed.

Lemma session_open_failures_are_fatal_witness :
  (exists s', run_step unnamed_session = Some s' /\
              worker s' = WThrown "Cannot save to an empty filename"
                            (mkMat 1 2 [1]) /\
              encoder s' = []) /\
  (exists s', run_step no_codec_session = Some s' /\
              worker s' = WThrown
                "Failed to open video encoder for file [/jevois/data/savevideo/video000000.avi]"
                (mkMat 1 2 [1]) /\
              encoder s' = []).
Proof.
  split.
  - destruct (session_open_failures_are_fatal unnamed_session 0 (mkMat 1 2 [1]))
      as (Ha & _); [vm_compute; reflexivity|].
    destruct Ha as (s' & Hs & Hw & _ & Henc & _); [vm_compute; reflexivity..|].
    exists s'. split; [exact Hs|]. split; [exact Hw|].
    rewrite Henc. vm_compute. reflexivity.
  - destruct (session_open_failures_are_fatal no_codec_session 0 (mkMat 1 2 [1]))
      as (_ & Hb & _); [vm_compute; reflexivity|].
    destruct (Hb 1196444237 "/jevois/data/savevideo/video%06d.avi"
                 "/jevois/data/savevideo/video000000.avi")
      as (s' & what & Hs & -> & Hw & _ & Henc & _); [vm_compute; reflexivity..|].
    exists s'. split; [exact Hs|]. split; [exact Hw|].
    rewrite Henc. vm_compute. reflexivity.
Defined.

(** ** The stop command *)

Arguments sync_and_report : simpl never.
Arguments writer_destroyed : simpl never.

Lemma filled_size_zero s : (filled_size s =? 0) = true <-> itsBuf s = [].
Proof.
  unfold filled_size. rewrite Z.eqb_eq. destruct (itsBuf s); simpl; split;
    intros; try done; lia.
Qed.

Section StopPhase.

(** The state in which [stop] is called, and the locals of [run] then. *)
Variables (s0 : State) (writer : option string) (frame : Z).

Lemma stop_phase_init :
  main s0 = MFree -> worker s0 = WPop writer frame -> itsBuf s0 = [] ->
  itsRunning s0 = true ->
  step (AParseSerial "stop") s0 = Some (state_of (parseSerial "stop" s0)) /\
  stop_phase s0 writer frame (state_of (parseSerial "stop" s0)).
Proof.
  intros Hm Hw Hq Hr. split.
  - simpl. unfold when_free. by rewrite Hm.
  - unfold stop_phase, in_stop. simpl. rewrite Hq, Hw.
    split; [done|]. split; [by left; left|]. left. split; [by left | done].
Qed.

Lemma stop_phase_main s s' :
  main_step s = Some s' ->
  stop_phase s0 writer frame s -> stop_phase s0 writer frame s'.
Proof.
  unfold stop_phase, in_stop, main_step. intros H (Hr & Hm & Hph).
  destruct Hm as [[Hm|Hm]|[Hm Hq]]; rewrite Hm in H; [| |done].
  - destruct (filled_size s =? 0) eqn:Hz; injection H as <-.
    + apply filled_size_zero in Hz.
      destruct (sync_and_report_effect s) as (Hw&He&Hd&Hb&Hn&_&_&_&Hrr&_).
      cbn. rewrite Hw, He, Hd, Hb, Hn, Hrr.
      split; [done|]. split; [by right|]. done.
    + simpl. split; [done|]. split; [by left; right|]. done.
  - injection H as <-. simpl. split; [done|]. split; [by left; left|]. done.
Qed.

Lemma stop_phase_run s s' :
  run_case s s' ->
  stop_phase s0 writer frame s -> stop_phase s0 writer frame s'.
Proof.
  intros H (Hr & Hm & Hph).
  destruct (run_case_fields _ _ H) as (Hm' & Hr' & _).
  unfold stop_phase, in_stop. rewrite Hm', Hr'. split; [done|].
  assert (Hsent : Mat_empty Mat_default = true) by done.
  destruct Hph as [([[Hw Hq]|[Hw Hq]] & Hn & Hd & He)
                  |([Hw|Hw] & Hq & Hn & Hd & He)];
    destruct H as [Hw'|???? Hw' Hq'|??? Hw' He' Hlt|?? Hw' He'|???? Hw' He' Hwr
                   |????? Hw' Ht' Hd' Hlt|?????? Hw' Ht' Hd' Ho' Hwr
                   |????? Hw' Ht' Hd' Ho'];
    rewrite Hw in Hw'; simplify_eq; try congruence.
  - (* the empty image is popped *)
    rewrite Hq in Hq'. simplify_eq. simpl.
    split; [destruct Hm as [?|[? ?]]; [by left | congruence]|].
    left. rewrite Hn, Hd, He. split; [by right | done].
  - (* the session is closed *)
    destruct (writer_destroyed_effect writer0
                (set_itsFileNum (itsFileNum s + 1) s)) as (Hd1&He1&Hb1&Hn1&_).
    simpl in *. rewrite Hd1, He1, Hb1, Hn1, Hq, Hn, Hd, He.
    split; [destruct Hm as [?|[? ?]]; [by left | by right]|].
    right. split; [by left | done].
  - (* back to the head of the loop *)
    rewrite Hr. simpl. rewrite Hq, Hn, Hd, He.
    split; [destruct Hm as [?|[? ?]]; [by left | by right]|].
    right. split; [by right | done].
Qed.

Lemma stop_phase_exec sched s s' :
  threads_only sched ->
  exec sched s = Some s' ->
  stop_phase s0 writer frame s -> stop_phase s0 writer frame s'.
Proof.
  intros Hs. revert s. induction Hs as [|a sched [->| ->] _ IH];
    simpl; intros s H Hph.
  - by simplify_eq.
  - destruct (main_step s) as [s1|] eqn:Hs1; simpl in H; [|done].
    eauto using stop_phase_main.
  - destruct (run_step s) as [s1|] eqn:Hs1; simpl in H; [|done].
    apply run_step_case in Hs1. eauto using stop_phase_run.
Qed.

End StopPhase.

Lemma exec_cons a sched s s1 :
  step a s = Some s1 -> exec (a :: sched) s = exec sched s1.
Proof. intros H. cbn [exec]. by rewrite H. Qed.

Lemma sentinel_steps s writer frame im q :
  worker s = WPop writer frame -> itsBuf s = im :: q -> Mat_empty im = true ->
  itsRunning s = true -> itsFileNum s < INT_MAX ->
  exists s', exec [ARun; ARun; ARun] s = Some s' /\
    itsFileNum s' = itsFileNum s + 1 /\ worker s' = WPop None 0 /\
    itsBuf s' = q /\ main s' = main s /\
    disk s' = closed_disk writer (disk s) /\
    encoder s' = closed_encoder writer (encoder s).
Proof.
  intros Hw Hq He Hr Hlt.
  pose (s1 := set_worker (WGot writer frame im) (set_itsBuf q s)).
  pose (s2 := set_worker WHead
                (writer_destroyed writer (set_itsFileNum (itsFileNum s1 + 1) s1))).
  pose (s3 := set_worker (if itsRunning s2 then WPop None 0 else WReturned) s2).
  assert (H1 : run_step s = Some s1).
  { apply run_step_case. by apply run_pop. }
  assert (H2 : run_step s1 = Some s2).
  { apply run_step_case. by eapply run_close. }
  assert (H3 : run_step s2 = Some s3).
  { apply run_step_case. by apply run_head. }
  exists s3.
  rewrite (exec_cons ARun _ s s1 H1), (exec_cons ARun _ s1 s2 H2),
    (exec_cons ARun _ s2 s3 H3).
  split; [done|].
  assert (Hr2 : itsRunning s2 = true) by (subst s2 s1; by destruct writer).
  subst s3. rewrite Hr2. subst s2 s1. unfold writer_destroyed.
  by destruct writer.
Qed.



(** C2, as the specification states it, fails: [start], then [stop] with no
    frame in between.  No encoder is opened and no file is created, but when
    the call of [stop] has returned and [run] is back in [pop] the counter
    has gone from 0 to 1. *)
Lemma stop_without_frames_counterexample :
  exec start_stop (fresh quiet ∅) = Some (final start_stop (fresh quiet ∅)) /\
  main (final start_stop (fresh quiet ∅)) = MFree /\
  worker (final start_stop (fresh quiet ∅)) = WPop None 0 /\
  encoder (final start_stop (fresh quiet ∅)) = [] /\
  disk (final start_stop (fresh quiet ∅)) = ∅ /\
  itsFileNum (fresh quiet ∅) = 0 /\
  itsFileNum (final start_stop (fresh quiet ∅)) = 1.
Proof. by_evaluation. Qed.

(** C2, amended.  A stop command issued while [run] waits in [pop] with no
    encoder open and the queue empty (no frame was recorded in the session)
    creates no file and hands nothing to the encoder, whatever the two
    threads do next; the counter is then its old value or one more, and it
    is exactly one more as soon as [run] is back in [pop] on the emptied
    queue.  The schedule in which [run] handles the empty image and the
    engine then tests the queue ends in that way. *)
Theorem stop_without_frames (s : State) (frame : Z) (sched : list Action)
    (s' : State) :
  main s = MFree -> worker s = WPop None frame -> itsBuf s = [] ->
  itsRunning s = true -> itsFileNum s < INT_MAX ->
  threads_only sched ->
  exec (AParseSerial "stop" :: sched) s = Some s' ->
  disk s' = disk s /\ encoder s' = encoder s /\
  (itsFileNum s' = itsFileNum s \/ itsFileNum s' = itsFileNum s + 1) /\
  (itsBuf s' = [] -> worker s' = WPop None 0 ->
   itsFileNum s' = itsFileNum s + 1) /\
  exists s'', exec [AParseSerial "stop"; ARun; ARun; ARun; AMain] s = Some s'' /\
    main s'' = MFree /\ worker s'' = WPop None 0 /\ itsBuf s'' = [] /\
    disk s'' = disk s /\ itsFileNum s'' = itsFileNum s + 1.
Proof.
  intros Hm Hw Hq Hr Hlt Hs Hx.
  destruct (stop_phase_init s None frame Hm Hw Hq Hr) as [Hstep Hph].
  pose proof Hph as Hph0.
  rewrite (exec_cons _ _ _ _ Hstep) in Hx.
  apply (stop_phase_exec _ _ _ _ _ _ Hs Hx) in Hph as (Hr' & Hmain & Hphase).
  assert (Hcore : disk s' = disk s /\ encoder s' = encoder s /\
                  (itsFileNum s' = itsFileNum s \/
                   itsFileNum s' = itsFileNum s + 1) /\
                  (itsBuf s' = [] -> worker s' = WPop None 0 ->
                   itsFileNum s' = itsFileNum s + 1)).
  { destruct Hphase as [([[_ Hq']|[Hw' _]] & Hn & Hd & He)|(_ & _ & Hn & Hd & He)].
    - repeat split; try done; [by left | congruence].
    - repeat split; try done; [by left | congruence].
    - repeat split; try done. by right. }
  destruct Hcore as (?&?&?&?). repeat split; try done.
  set (s1 := state_of (parseSerial "stop" s)) in *.
  destruct (sentinel_steps s1 None frame Mat_default []) as
    (s2 & Hx2 & Hn2 & Hw2 & Hq2 & Hm2 & Hd2 & _); try done.
  { subst s1. simpl. by rewrite Hq. }
  assert (Hms : main_step s2 = Some (set_main MFree (sync_and_report s2))).
  { unfold main_step. rewrite Hm2. subst s1. simpl.
    by rewrite (proj2 (filled_size_zero s2) Hq2). }
  exists (set_main MFree (sync_and_report s2)). split.
  - rewrite (exec_cons _ _ _ _ Hstep). fold s1.
    cbn [exec] in *.
    destruct (step ARun s1) as [t1|]; [|done]. cbn [mbind option_bind] in *.
    destruct (step ARun t1) as [t2|]; [|done]. cbn [mbind option_bind] in *.
    destruct (step ARun t2) as [t3|]; [|done]. cbn [mbind option_bind] in *.
    injection Hx2 as ->. cbn [step]. by rewrite Hms.
  - destruct (sync_and_report_effect s2) as (Hw3&_&Hd3&Hb3&Hn3&_).
    cbn. rewrite Hw3, Hn3, Hd3, Hb3, Hn2, Hd2. subst s1. done.
Qed.

Lemma stop_without_frames_witness :
  exists s', exec [AParseSerial "stop"; ARun; AMain; ARun; ARun] idle_session
             = Some s' /\
             disk s' = ∅ /\ encoder s' = [] /\ itsFileNum s' = 1.
Proof.
  destruct (exec [AParseSerial "stop"; ARun; AMain; ARun; ARun] idle_session)
    as [s'|] eqn:Hx; [|vm_compute in Hx; discriminate].
  exists s'. split; [reflexivity|].
  destruct (stop_without_frames idle_session 0 [ARun; AMain; ARun; ARun] s')
    as (Hd & He & _ & Hn & _); try (vm_compute; reflexivity).
  - unfold threads_only. repeat (constructor; [auto|]). constructor.
  - exact Hx.
  - split; [exact Hd|]. split; [exact He|].
    apply Hn.
    + vm_compute in Hx. injection Hx as <-. reflexivity.
    + vm_compute in Hx. injection Hx as <-. reflexivity.
Defined.

(** A call of [stop] returns from its waiting loop only on an empty
    queue. *)
Lemma stop_returns_when_drained s s' :
  in_stop s -> main_step s = Some s' -> main s' = MFree ->
  itsBuf s = [] /\ itsBuf s' = [].
Proof.
  unfold in_stop, main_step. intros [Hm|Hm] H Hf; rewrite Hm in H.
  - destruct (filled_size s =? 0) eqn:Hz; injection H as <-; [|done].
    apply filled_size_zero in Hz.
    destruct (sync_and_report_effect s) as (_&_&_&Hb&_).
    cbn. by rewrite Hb.
  - by injection H as <-.
Qed.

(** C3, the failing schedule.  One frame is recorded; [stop] is called; [run]
    pops the empty image; the engine thread then finds the queue empty,
    leaves its loop and reports the video as saved.  At that moment [run]
    still holds the empty image and has not yet destroyed [writer]: the
    file of the session is not finalized.  It is finalized by the next step
    of [run]. *)
Theorem stop_returns_before_file_is_finalized :
  exec stop_race (fresh quiet ∅) = Some (final stop_race (fresh quiet ∅)) /\
  main (final stop_race (fresh quiet ∅)) = MFree /\
  filled_size (final stop_race (fresh quiet ∅)) = 0 /\
  last (logs (final stop_race (fresh quiet ∅)))
  = Some (LINFO, "Video /jevois/data/savevideo/video000000.avi saved.") /\
  worker (final stop_race (fresh quiet ∅))
  = WGot (Some "/jevois/data/savevideo/video000000.avi") 1 Mat_default /\
  disk (final stop_race (fresh quiet ∅))
    !! "/jevois/data/savevideo/video000000.avi"
  = Some (mkVideoFile [mkMat 1 2 [1]] false) /\
  (disk <$> run_step (final stop_race (fresh quiet ∅)))
  = Some {[ "/jevois/data/savevideo/video000000.avi"
            := mkVideoFile [mkMat 1 2 [1]] true ]}.
Proof. by_evaluation. Qed.
(** ** File names *)

(** C4, the failing input.  [video000000.avi] exists and holds a recording
    of one frame, but the process cannot read it.  In a session of one
    frame, with the counter at 0, the stream of line 266 does not open on
    that name, so line 267 takes it as the output path: the encoder is
    opened on the existing file, the recording it held is gone, and the
    file now holds the frame of the new session.  The counter was not
    moved by the probing; it is 1 after the stop. *)
Theorem unreadable_file_is_overwritten :
  disk (fresh locked recorded_disk)
    !! "/jevois/data/savevideo/video000000.avi"
  = Some (mkVideoFile [mkMat 1 2 [9]] true) /\
  ifstream_is_open "/jevois/data/savevideo/video000000.avi"
    (fresh locked recorded_disk) = false /\
  exists s, exec one_session (fresh locked recorded_disk) = Some s /\
    itsFilename s = "/jevois/data/savevideo/video000000.avi" /\
    itsFileNum s = 1 /\
    serial s = ["SAVESTART";
                "SAVETO /jevois/data/savevideo/video000000.avi";
                "SAVESTOP"] /\
    opened s = ["/jevois/data/savevideo/video000000.avi"] /\
    written s = [mkMat 1 2 [1]] /\
    disk s = {[ "/jevois/data/savevideo/video000000.avi"
                  := mkVideoFile [mkMat 1 2 [1]] true ]}.
Proof.
  split; [by_evaluation|]. split; [by_evaluation|].
  exists (final one_session (fresh locked recorded_disk)). by_evaluation.
Qed.

(** ** The order of the frames *)

Lemma written_app e1 e2 s s' :
  encoder s' = (encoder s ++ e2)%list ->
  e1 = omap frame_of e2 ->
  written s' = (written s ++ e1)%list.
Proof. unfold written. intros -> ->. by rewrite omap_app. Qed.

Lemma run_case_outstanding s s' :
  run_case s s' -> outstanding s' = outstanding s.
Proof.
  unfold outstanding, in_flight, queued.
  destruct 1 as [Hw|???? Hw Hq|??? Hw He Hlt|?? Hw He|???? Hw He Hwf
                 |????? Hw Ht Hd Hlt|?????? Hw Ht Hd Ho Hwf|????? Hw Ht Hd Ho];
    rewrite Hw.
  - simpl. by destruct (itsRunning s).
  - simpl. rewrite Hq. simpl. by destruct (Mat_empty im).
  - rewrite He.
    destruct (writer_destroyed_effect writer
                (set_itsFileNum (itsFileNum s + 1) s)) as (_&Hen&Hb&_).
    cbn. rewrite Hb. unfold written. cbn. rewrite Hen.
    destruct writer; simpl; [|done]. by rewrite omap_app, app_nil_r.
  - rewrite He.
    destruct (start_encoder_effect frame im s)
      as (Hw'&Hen&_&Hb&_). unfold written. rewrite Hen, Hb.
    by destruct Hw' as [[-> _]|(?&?&->&_)].
  - rewrite He.
    apply write_frame_Some in Hwf as (_&->&Hen&_&->&_).
    rewrite (written_app [im] _ _ _ Hen eq_refl). by rewrite <- app_assoc.
  - cbn. by rewrite Hw.
  - apply write_frame_Some in Hwf as (_&->&Hen&_&->&_).
    simpl in Hen. rewrite <- app_assoc in Hen.
    rewrite (written_app [im] _ _ _ Hen eq_refl). by rewrite <- app_assoc.
  - by cbn.
Qed.

Lemma queued_app s q :
  List.filter (fun im => negb (Mat_empty im)) (itsBuf s ++ q)
  = (queued s ++ List.filter (fun im => negb (Mat_empty im)) q)%list.
Proof. unfold queued. by rewrite List.filter_app. Qed.

Lemma engine_step_outstanding a s s' :
  a <> ARun -> step a s = Some s' ->
  launched_by_postInit s -> camera_frame (env s) a ->
  outstanding s' = (outstanding s ++ accepts a s)%list.
Proof.
  intros Ha H Hl Hc. pose proof H as H0.
  apply engine_step in H as (Hb&Hw&He&_); [|done].
  assert (Hfl : in_flight s' = in_flight s).
  { unfold in_flight. rewrite Hw. destruct a; try done.
    simpl in H0. destruct (main s) eqn:Hm; try done. by rewrite Hl. }
  unfold outstanding. rewrite Hfl. unfold written at 1. rewrite He.
  fold (written s). unfold queued at 1. rewrite Hb, queued_app.
  rewrite <- !app_assoc. do 3 f_equal.
  destruct a; simpl in *; try done.
  - destruct Hc as [-> Hc]. simpl.
    destruct (itsSaving s && (filled_size s <=? 1000)); simpl; [|done].
    by rewrite Hc.
  - destruct (itsSaving s && (filled_size s <=? 1000)); simpl; [|done].
    by rewrite Hc.
  - by destruct (str =? "stop")%string.
  - by destruct (main s).
Qed.

Lemma step_launched a s s' :
  step a s = Some s' -> launched_by_postInit s -> launched_by_postInit s'.
Proof.
  unfold launched_by_postInit. intros H Hl Hm.
  assert (main s = MNew \/ main s <> MNew) as [Hn|Hn]
    by (destruct (main s); auto).
  - destruct a; simpl in H; unfold when_free, main_step, run_step in H;
      rewrite ?Hn, ?(Hl Hn) in H; try done.
    by simplify_eq.
  - by apply (step_main_started _ _ _ H) in Hn.
Qed.

Lemma step_env a s s' : step a s = Some s' -> env s' = env s.
Proof.
  intros H. destruct (run_or_engine a) as [->|Ha].
  - by apply run_step_case, run_case_fields in H as (_&_&?&_).
  - by apply engine_step in H as (_&_&_&_&_&?).
Qed.

Lemma exec_outstanding sched s s' :
  exec sched s = Some s' ->
  launched_by_postInit s -> Forall (camera_frame (env s)) sched ->
  outstanding s' = (outstanding s ++ accepted sched s)%list.
Proof.
  revert s. induction sched as [|a sched IH]; simpl; intros s H Hl Hc.
  - simplify_eq. by rewrite app_nil_r.
  - destruct (step a s) as [s1|] eqn:Hs1; simpl in H; [|done].
    apply Forall_cons in Hc as [Hca Hc].
    rewrite (IH s1 H); [|by eapply step_launched|by rewrite (step_env _ _ _ Hs1)].
    destruct (run_or_engine a) as [->|Ha].
    + apply run_step_case, run_case_outstanding in Hs1. by rewrite Hs1.
    + rewrite (engine_step_outstanding _ _ _ Ha Hs1 Hl Hca).
      by rewrite <- app_assoc.
Qed.

Lemma run_drains frames : forall s path frame q,
  worker s = WPop (Some path) frame ->
  itsBuf s = (frames ++ q)%list ->
  Forall (fun im => Mat_empty im = false) frames ->
  frame + Z.of_nat (length frames) <= INT_MAX ->
  exists s', exec (replicate (2 * length frames) ARun) s = Some s' /\
    written s' = (written s ++ frames)%list /\ itsBuf s' = q /\
    worker s' = WPop (Some path) (frame + Z.of_nat (length frames)).
Proof.
  induction frames as [|im frames IH]; intros s path frame q Hw Hq Hf Hle.
  - exists s. simpl in *. rewrite app_nil_r, Z.add_0_r. done.
  - apply Forall_cons in Hf as [He Hf].
    pose (s1 := set_worker (WGot (Some path) frame im)
                  (set_itsBuf (frames ++ q) s)).
    assert (H1 : step ARun s = Some s1).
    { apply run_step_case. by apply run_pop. }
    destruct (write_frame_lt path frame im s1) as [s2 H2].
    { simpl length in Hle. lia. }
    assert (H2' : step ARun s1 = Some s2).
    { apply run_step_case. by eapply run_write. }
    apply write_frame_Some in H2 as (_&Hw2&Hen2&_&Hb2&_).
    destruct (IH s2 path (frame + 1) q) as (s' & Hx & Hwr & Hb & Hw');
      [done | done | done | simpl length in Hle; lia |].
    exists s'. replace (2 * length (im :: frames))%nat
      with (S (S (2 * length frames))) by (simpl; lia).
    cbn [replicate]. rewrite (exec_cons _ _ _ _ H1), (exec_cons _ _ _ _ H2').
    split; [done|]. rewrite Hwr, Hb, Hw'.
    rewrite (written_app [im] _ _ _ Hen2 eq_refl), <- app_assoc.
    repeat split; try done. f_equal. simpl length. lia.
Qed.

(** C1, the failing schedules.  In the first, recording is started and a
    frame is accepted into the queue before [run] has made its first test
    of the running flag; [postUninit] then clears the flag, [run] finds it
    false at line 230 and returns without calling [pop], and [postUninit]
    joins it, syncs and returns.  In the second, one frame is recorded and
    [stop] returns as in [stop_race]; a second frame is accepted while [run]
    still holds the empty image; [postUninit] clears the flag; [run] closes
    the first file, finds the flag false and returns.  Both threads have
    ended and no action is possible any more, with an accepted frame still
    in the queue, in front of the empty image that was to end its session:
    it was never handed to the encoder, and in the first schedule no file
    was created at all. *)
Theorem accepted_frame_lost_at_shutdown :
  (exists s, exec early_shutdown (fresh quiet ∅) = Some s /\
     accepted early_shutdown (fresh quiet ∅) = [mkMat 1 2 [1]] /\
     main s = MDone /\ worker s = WReturned /\
     itsBuf s = [mkMat 1 2 [1]; Mat_default] /\
     written s = [] /\ encoder s = [] /\ disk s = ∅ /\
     forall a, step a s = None) /\
  (exists s, exec late_shutdown (fresh quiet ∅) = Some s /\
     accepted late_shutdown (fresh quiet ∅)
     = [mkMat 1 2 [1]; mkMat 1 2 [2]] /\
     main s = MDone /\ worker s = WReturned /\
     itsBuf s = [mkMat 1 2 [2]; Mat_default] /\
     written s = [mkMat 1 2 [1]] /\
     disk s = {[ "/jevois/data/savevideo/video000000.avi"
                   := mkVideoFile [mkMat 1 2 [1]] true ]} /\
     forall a, step a s = None).
Proof.
  split.
  - exists (final early_shutdown (fresh quiet ∅)).
    repeat match goal with |- _ /\ _ => split end;
      try (vm_compute; reflexivity).
    intros a. destruct a; vm_compute; reflexivity.
  - exists (final late_shutdown (fresh quiet ∅)).
    repeat match goal with |- _ /\ _ => split end;
      try (vm_compute; reflexivity).
    intros a. destruct a; vm_compute; reflexivity.
Qed.

(** X17. From the constructed module on, along every schedule whose
    acquisition cycles carry camera frames, the frames written to the
    encoder, then the frame [run] holds, then the frames waiting in the
    queue are together exactly the frames accepted in the cycles that found
    Recording State true and the filled size at most 1000, in the order of
    these cycles.  So the frames written are always the first of the frames
    accepted, in their order and each once, and no other image is written;
    the accepted frames not yet written are held or queued, and once the
    queue is empty and [run] holds no frame, the frames written are exactly
    the frames accepted.  With an encoder open and [n] frames queued,
    [2 * n] steps of [run] hand them to the encoder in queue order.  That
    [run] gets to write every queued frame is not part of this: it does not
    when it has thrown, or has returned. *)
Theorem frames_written_in_push_order :
  (forall fn fcc rate w d sched s,
     exec sched (SaveVideo fn fcc rate w d) = Some s ->
     Forall (camera_frame w) sched ->
     (written s ++ in_flight s ++ queued s)%list
     = accepted sched (SaveVideo fn fcc rate w d) /\
     (itsBuf s = [] -> in_flight s = [] ->
      written s = accepted sched (SaveVideo fn fcc rate w d))) /\
  (forall s path frame frames q,
     worker s = WPop (Some path) frame ->
     itsBuf s = (frames ++ q)%list ->
     Forall (fun im => Mat_empty im = false) frames ->
     frame + Z.of_nat (length frames) <= INT_MAX ->
     exists s', exec (replicate (2 * length frames) ARun) s = Some s' /\
       written s' = (written s ++ frames)%list /\ itsBuf s' = q /\
       worker s' = WPop (Some path) (frame + Z.of_nat (length frames))).
Proof.
  split.
  - intros fn fcc rate w d sched s Hx Hc.
    assert (Ho : outstanding s = accepted sched (SaveVideo fn fcc rate w d)).
    { rewrite (exec_outstanding _ _ _ Hx); [done|done|done]. }
    split; [exact Ho|]. intros Hq Hfl. rewrite <- Ho.
    unfold outstanding, queued. rewrite Hfl, Hq. simpl. by rewrite app_nil_r.
  - intros. by eapply run_drains.
Qed.

Lemma frames_written_in_push_order_witness :
  (exists s, exec two_sessions (fresh quiet old_disk) = Some s /\
             written s = [mkMat 1 2 [1]; mkMat 1 2 [2]]) /\
  (exists s', exec [ARun; ARun; ARun; ARun] busy_session = Some s' /\
              written s' = [mkMat 1 2 [1]; mkMat 1 2 [2]; mkMat 1 2 [3]] /\
              itsBuf s' = []).
Proof.
  destruct frames_written_in_push_order as [Ha Hb]. split.
  - destruct (exec two_sessions (fresh quiet old_disk)) as [s|] eqn:Hx;
      [|vm_compute in Hx; discriminate].
    exists s. split; [reflexivity|].
    destruct (Ha "video%06d.avi" "MJPG" (30 # 1) quiet old_disk two_sessions s)
      as [_ Hw].
    + exact Hx.
    + repeat (constructor; [first [exact I | reflexivity]|]). constructor.
    + rewrite Hw.
      * vm_compute. reflexivity.
      * vm_compute in Hx. injection Hx as <-. reflexivity.
      * vm_compute in Hx. injection Hx as <-. reflexivity.
  - destruct (Hb busy_session "/jevois/data/savevideo/video000000.avi" 1
                 [mkMat 1 2 [2]; mkMat 1 2 [3]] [])
      as (s' & Hx & Hw & Hq & _).
    + vm_compute. reflexivity.
    + vm_compute. reflexivity.
    + repeat (constructor; [reflexivity|]). constructor.
    + vm_compute. discriminate.
    + exists s'. split; [exact Hx|]. split; [|exact Hq].
      rewrite Hw. vm_compute. reflexivity.
Defined.

(** ** Further properties: the engine thread *)

(** X1. For a camera image that passes the requirement of line 141, the
    overload of [process] with video output enqueues and logs exactly as
    the overload without: with a conforming output buffer it then sends one
    image, the camera image with the recording status and the file name
    drawn over it; with a non-conforming one it throws after the frame has
    been enqueued, and sends nothing.  An image that fails the requirement of
    line 141 makes it throw with the state untouched. *)
Theorem process_overloads_agree (inimg outimg : RawImage) (s : State) :
  let s1 := state_of (process_nousb inimg s) in
  (require inimg (width inimg) (height inimg) V4L2_PIX_FMT_YUYV = false ->
   process inimg outimg s = Throw "input" s) /\
  (require inimg (width inimg) (height inimg) V4L2_PIX_FMT_YUYV = true ->
   (require outimg (width inimg) (height inimg) V4L2_PIX_FMT_YUYV = false ->
    process inimg outimg s = Throw "output" s1) /\
   (require outimg (width inimg) (height inimg) V4L2_PIX_FMT_YUYV = true ->
    exists y,
      process inimg outimg s
      = Ok (send (mkOutImage inimg
                    [("SaveVideo: " +:+ (if itsSaving s then "RECORDING"
                                         else "not recording"), 3, 3);
                     (itsFilename s, 3, y)]) s1) /\
      0 <= y < 2 ^ 32 /\
      (13 <= Z.of_nat (height inimg) < 2 ^ 32 ->
       y = Z.of_nat (height inimg) - 13))).
Proof.
  cbv zeta. unfold process, process_nousb. split.
  - by intros ->.
  - intros ->. simpl. split.
    + intros ->. simpl. by repeat (break_inner; simpl).
    + intros ->. simpl. exists ((Z.of_nat (height inimg) - 13) mod 2 ^ 32).
      split; [by repeat (break_inner; simpl)|]. split.
      * by apply Z.mod_pos_bound.
      * intros H. apply Z.mod_small. lia.
Qed.

Lemma process_overloads_agree_witness :
  process (yuyv 1) (mkRawImage 4 4 V4L2_PIX_FMT_YUYV [])
    (set_itsSaving true (fresh quiet ∅))
  = Throw "output"
      (push (mkMat 1 2 [1]) (set_itsSaving true (fresh quiet ∅))).
Proof.
  destruct (process_overloads_agree (yuyv 1)
              (mkRawImage 4 4 V4L2_PIX_FMT_YUYV [])
              (set_itsSaving true (fresh quiet ∅))) as [_ Hb].
  destruct Hb as [Hc _]; [reflexivity|].
  apply Hc. reflexivity.
Defined.

(** X2. The commands that [supportedCommands] lists, one at the start of
    each line, are exactly the strings that [parseSerial] accepts; every
    other string makes [parseSerial] throw and leaves the state as it
    was. *)
Theorem listed_commands_are_the_accepted_ones (str : string) (s : State) :
  (In str (first_word <$> lines_from "" (supportedCommands ""))
   <-> exists s', parseSerial str s = Ok s') /\
  (~ In str (first_word <$> lines_from "" (supportedCommands ""))
   <-> parseSerial str s = Throw "Unsupported module command" s).
Proof.
  assert (Hl : first_word <$> lines_from "" (supportedCommands "")
               = ["start"; "stop"]) by (vm_compute; reflexivity).
  rewrite Hl. unfold parseSerial.
  destruct (String.eqb_spec str "start") as [->|Hn1].
  { split; split; intros H; simpl in *; eauto; try done. by destruct H; left. }
  destruct (String.eqb_spec str "stop") as [->|Hn2].
  { split; split; intros H; simpl in *; eauto; try done.
    by destruct H; right; left. }
  split; split; intros H; simpl in *; try done.
  - by destruct H as [?|[?|?]].
  - by destruct H.
  - by intros [?|[?|?]].
Qed.

Lemma run_case_queue s s' :
  run_case s s' ->
  main s' = main s /\
  (itsBuf s' = itsBuf s \/ exists im, itsBuf s = im :: itsBuf s').
Proof.
  intros H. split; [by apply run_case_fields in H as (?&_)|].
  destruct H as [Hw|???? Hw Hq|??? Hw He Hlt|?? Hw He|???? Hw He Hwf
                 |????? Hw Ht Hd Hlt|?????? Hw Ht Hd Ho Hwf|????? Hw Ht Hd Ho].
  - by left.
  - right. exists im. by rewrite Hq.
  - left. by destruct writer.
  - left. by destruct (start_encoder_effect frame im s) as (_&_&_&?&_).
  - left. by apply write_frame_Some in Hwf as (_&_&_&_&?&_).
  - by left.
  - left. by apply write_frame_Some in Hwf as (_&_&_&_&?&_).
  - by left.
Qed.

Lemma step_queue_bounded a s s' :
  step a s = Some s' -> queue_bounded s -> queue_bounded s'.
Proof.
  unfold queue_bounded, queue_within. intros H [Hb Hm].
  destruct (run_or_engine a) as [->|Ha].
  { apply run_step_case, run_case_queue in H as [-> [->|[im Hq]]]; [done|].
    rewrite Hq in *. simpl in *. split; [lia|]. destruct (main s); try done; lia. }
  destruct a; try done; simpl in H;
    unfold when_free, main_step, process, process_nousb, parseSerial,
      filled_size in H;
    destruct (main s) eqn:Hms; try done.
  - injection H as <-. simpl. split; [lia|done].
  - injection H as <-. simpl. split; [lia|done].
  - injection H as <-.
    destruct (require inimg _ _ _); simpl; [|by rewrite Hms].
    destruct (itsSaving s); simpl.
    + destruct (Z.ltb_spec 1000 (Z.of_nat (length (itsBuf s)))); simpl;
        destruct (require outimg _ _ _); simpl; rewrite ?Hms, ?length_app;
        simpl; (split; [lia|]); try done; lia.
    + destruct (require outimg _ _ _); simpl; by rewrite Hms.
  - destruct (itsSaving s); simpl in H.
    + destruct (Z.ltb_spec 1000 (Z.of_nat (length (itsBuf s))));
        injection H as <-; simpl; rewrite ?Hms, ?length_app; simpl;
        (split; [lia|]); try done; lia.
    + injection H as <-. by rewrite Hms.
  - destruct (str =? "start")%string; [|destruct (str =? "stop")%string];
      injection H as <-; simpl; rewrite ?Hms, ?length_app; simpl;
      (split; [lia|]); try done.
  - destruct (Z.of_nat (length (itsBuf s)) =? 0) eqn:Hz; injection H as <-.
    + destruct (sync_and_report_effect s) as (_&_&_&Hq&_).
      cbn. rewrite Hq. apply Z.eqb_eq in Hz. split; lia.
    + by simpl.
  - injection H as <-. by simpl.
  - injection H as <-. simpl. rewrite length_app. simpl. split; [lia|done].
  - injection H as <-. by simpl.
  - destruct (worker s); try done; injection H as <-;
      destruct (sync_and_report_effect s) as (_&_&_&Hq&_); cbn.
    + by rewrite Hq.
    + destruct (sync_and_report_effect (log LERROR what s)) as (_&_&_&Hq'&_).
      by rewrite Hq'.
Qed.

(** X3. From the constructed module on, whatever the schedule, the queue
    never holds more than 1002 items, and never more than 1001 between two
    calls of the engine: [process] pushes only onto 1000 items or fewer,
    and each of [parseSerial("stop")] and [postUninit] adds one empty
    image. *)
Theorem queue_never_exceeds_bound (fn fcc : string) (rate : Q) (w : World)
    (d : gmap string VideoFile) (sched : list Action) (s : State) :
  exec sched (SaveVideo fn fcc rate w d) = Some s ->
  (length (itsBuf s) <= 1002)%nat /\
  (main s = MFree -> (length (itsBuf s) <= 1001)%nat).
Proof.
  intros H.
  assert (Hb : queue_bounded s).
  { assert (H0 : queue_bounded (SaveVideo fn fcc rate w d)).
    { unfold queue_bounded, queue_within. simpl. lia. }
    revert H H0. generalize (SaveVideo fn fcc rate w d).
    induction sched as [|a sched IH]; simpl; intros s0 H H0.
    - by simplify_eq.
    - destruct (step a s0) as [s1|] eqn:Hs1; simpl in H; [|done].
      eauto using step_queue_bounded. }
  destruct Hb as [Hb Hm]. split; [done|]. intros Hf. by rewrite Hf in Hm.
Qed.

Lemma queue_never_exceeds_bound_witness :
  exists s, exec ([APostInit; AParseSerial "start"] ++ cycles 1005 (yuyv 1)
                  ++ [AParseSerial "stop"]) (fresh quiet ∅) = Some s /\
            length (itsBuf s) = 1002%nat.
Proof.
  destruct (exec ([APostInit; AParseSerial "start"] ++ cycles 1005 (yuyv 1)
                  ++ [AParseSerial "stop"]) (fresh quiet ∅))
    as [s|] eqn:Hx; [|vm_compute in Hx; discriminate].
  exists s. split; [reflexivity|].
  destruct (queue_never_exceeds_bound _ _ _ _ _ _ _ Hx) as [Hle _].
  assert (Hge : (1002 <=? length (itsBuf s))%nat = true).
  { vm_compute in Hx. injection Hx as <-. vm_compute. reflexivity. }
  apply Nat.leb_le in Hge. lia.
Defined.

(** ** Further properties: how the threads end *)

Lemma stop_stuck_step what im a s s' :
  step a s = Some s' -> stop_stuck what im s ->
  stop_stuck what im s' /\ a = AMain.
Proof.
  unfold stop_stuck, in_stop. intros H (Hm & Hw & Hq).
  destruct a; simpl in H; unfold when_free, run_step, main_step in H.
  1-5: destruct Hm as [Hm|Hm]; rewrite Hm in H; done.
  - split; [|done]. destruct Hm as [Hm|Hm]; rewrite Hm in H.
    + destruct (filled_size s =? 0) eqn:Hz.
      * apply filled_size_zero in Hz. done.
      * injection H as <-. simpl. auto.
    + injection H as <-. simpl. auto.
  - by rewrite Hw in H.
Qed.

(** X4. Once [run] has thrown (empty file name, encoder that does not open)
    a stop command never returns: it pushes the empty image, nothing pops
    it, and the engine thread stays in the loop of lines 206-210, which it
    can repeat without end; no other call of the engine can be served. *)
Theorem stop_never_returns_after_failure (what : string) (im : Mat)
    (s : State) :
  worker s = WThrown what im -> main s = MFree ->
  (forall sched s',
     exec (AParseSerial "stop" :: sched) s = Some s' ->
     in_stop s' /\ threads_only sched /\ itsBuf s' <> []) /\
  (forall n, exists s',
     exec (AParseSerial "stop" :: replicate n AMain) s = Some s' /\
     in_stop s').
Proof.
  intros Hw Hm.
  assert (H1 : step (AParseSerial "stop") s
               = Some (state_of (parseSerial "stop" s))).
  { simpl. unfold when_free. by rewrite Hm. }
  assert (H0 : stop_stuck what im (state_of (parseSerial "stop" s))).
  { unfold stop_stuck, in_stop. simpl. rewrite Hw.
    split; [by left|]. split; [done|]. by destruct (itsBuf s). }
  split.
  - intros sched s' Hx. rewrite (exec_cons _ _ _ _ H1) in Hx.
    revert Hx H0. generalize (state_of (parseSerial "stop" s)).
    induction sched as [|a sched IH]; simpl; intros s1 Hx H0.
    + simplify_eq. destruct H0 as (?&?&?). repeat split; try done. constructor.
    + destruct (step a s1) as [s2|] eqn:Hs2; simpl in Hx; [|done].
      destruct (stop_stuck_step _ _ _ _ _ Hs2 H0) as [H2 ->].
      destruct (IH s2 Hx H2) as (?&?&?). repeat split; try done.
      constructor; [by left|done].
  - intros n. rewrite (exec_cons _ _ _ _ H1).
    revert H0. generalize (state_of (parseSerial "stop" s)).
    induction n as [|n IH]; intros s1 H0.
    + exists s1. split; [done|]. by destruct H0.
    + assert (exists s2, step AMain s1 = Some s2) as [s2 Hs2].
      { destruct H0 as ([Hm1|Hm1] & _ & Hq); simpl; unfold main_step;
          rewrite Hm1; [|eauto].
        destruct (filled_size s1 =? 0) eqn:Hz; [|eauto].
        apply filled_size_zero in Hz. done. }
      destruct (stop_stuck_step _ _ _ _ _ Hs2 H0) as [H2 _].
      destruct (IH s2 H2) as (s' & Hx & Hin).
      exists s'. cbn [replicate]. by rewrite (exec_cons _ _ _ _ Hs2).
Qed.

Lemma stop_never_returns_after_failure_witness :
  exists s', exec (AParseSerial "stop" :: replicate 4 AMain) failed_session
             = Some s' /\ in_stop s'.
Proof.
  destruct (stop_never_returns_after_failure
              "Cannot save to an empty filename" (mkMat 1 2 [1])
              failed_session) as [_ Hb]; [vm_compute; reflexivity..|].
  exact (Hb 4%nat).
Defined.

(** X5. [postUninit] completes even when [run] has thrown: the running flag
    is cleared, the empty image is pushed, [itsRunFut.get()] rethrows, the
    exception is caught and logged, the disk is synced and the call
    returns; nothing is handed to the encoder. *)
Theorem shutdown_completes_after_failure (what : string) (im : Mat)
    (s : State) :
  worker s = WThrown what im -> main s = MFree ->
  exists s', exec [APostUninit; AMain; AMain; AMain] s = Some s' /\
    main s' = MDone /\ itsRunning s' = false /\
    In (LERROR, what) (logs s') /\
    last (logs s') = Some (LINFO, "Video " +:+ itsFilename s +:+ " saved.") /\
    itsBuf s' = (itsBuf s ++ [Mat_default])%list /\
    encoder s' = encoder s /\ disk s' = disk s.
Proof.
  intros Hw Hm.
  pose (s1 := postUninit s).
  pose (s2 := set_main MUninitLog (push Mat_default s1)).
  pose (s3 := set_main MJoin (log LINFO (waiting_message s2) s2)).
  pose (s4 := set_main MDone (sync_and_report (log LERROR what s3))).
  assert (H1 : step APostUninit s = Some s1).
  { simpl. unfold when_free. by rewrite Hm. }
  assert (H2 : step AMain s1 = Some s2) by reflexivity.
  assert (H3 : step AMain s2 = Some s3) by reflexivity.
  assert (H4 : step AMain s3 = Some s4).
  { simpl. unfold main_step. change (main s3) with MJoin. cbv iota.
    change (worker s3) with (worker s). by rewrite Hw. }
  exists s4.
  rewrite (exec_cons _ _ _ _ H1), (exec_cons _ _ _ _ H2),
    (exec_cons _ _ _ _ H3), (exec_cons _ _ _ _ H4).
  split; [done|].
  destruct (sync_and_report_effect (log LERROR what s3))
    as (_&He&Hd&Hq&_&Hf&_&_&Hr&_).
  assert (Hlog : In (LERROR, what) (logs s4) /\
                 last (logs s4)
                 = Some (LINFO, "Video " +:+ itsFilename s +:+ " saved.")).
  { subst s4. unfold sync_and_report. cbn.
    destruct (system (env s) "/bin/sync" =? 0); cbn; rewrite last_snoc;
      (split; [|done]); rewrite !in_app_iff; simpl; auto 10. }
  destruct Hlog as [Hl1 Hl2].
  change (main s4) with MDone.
  change (itsRunning s4) with (itsRunning (sync_and_report (log LERROR what s3))).
  change (itsBuf s4) with (itsBuf (sync_and_report (log LERROR what s3))).
  change (encoder s4) with (encoder (sync_and_report (log LERROR what s3))).
  change (disk s4) with (disk (sync_and_report (log LERROR what s3))).
  rewrite Hr, Hq, He, Hd. done.
Qed.

Lemma shutdown_completes_after_failure_witness :
  exists s', exec [APostUninit; AMain; AMain; AMain] failed_session = Some s' /\
             main s' = MDone.
Proof.
  destruct (shutdown_completes_after_failure
              "Cannot save to an empty filename" (mkMat 1 2 [1])
              failed_session) as (s' & Hx & Hm & _); [vm_compute; reflexivity..|].
  exists s'. split; [exact Hx | exact Hm].
Defined.

Lemma returned_forever sched s s' :
  worker s = WReturned -> main s <> MNew ->
  exec sched s = Some s' ->
  worker s' = WReturned /\ encoder s' = encoder s /\ disk s' = disk s /\
  exists more, itsBuf s' = (itsBuf s ++ more)%list.
Proof.
  revert s. induction sched as [|a sched IH]; simpl; intros s Hw Hm H.
  - simplify_eq. repeat split; try done. exists []. by rewrite app_nil_r.
  - destruct (step a s) as [s1|] eqn:Hs1; simpl in H; [|done].
    destruct (run_or_engine a) as [->|Ha].
    { simpl in Hs1. unfold run_step in Hs1. by rewrite Hw in Hs1. }
    assert (Hm1 : main s1 <> MNew) by eauto using step_main_started.
    assert (Hi : a <> APostInit).
    { intros ->. simpl in Hs1. by destruct (main s). }
    apply engine_step in Hs1 as (Hq1&Hw1&He1&Hd1&_); [|done].
    assert (Hw1' : worker s1 = WReturned).
    { rewrite Hw1. by destruct a. }
    destruct (IH s1 Hw1' Hm1 H) as (?&?&?&more&Hq).
    repeat split; try congruence.
    exists (pushes a s ++ more)%list. by rewrite Hq, Hq1, <- app_assoc.
Qed.

(** X6. If [run] is at the head of its outer loop when the running flag is
    false, it returns without calling [pop]; from then on, whatever is
    scheduled, nothing is handed to the encoder and no file changes, and
    the queue keeps every item it held: frames still queued at that moment
    are never written. *)
Theorem run_returns_without_draining (s : State) (sched : list Action)
    (s' : State) :
  worker s = WHead -> itsRunning s = false -> main s <> MNew ->
  exec (ARun :: sched) s = Some s' ->
  worker s' = WReturned /\ written s' = written s /\
  encoder s' = encoder s /\ disk s' = disk s /\
  exists more, itsBuf s' = (itsBuf s ++ more)%list.
Proof.
  intros Hw Hr Hm Hx.
  assert (H1 : step ARun s = Some (set_worker WReturned s)).
  { simpl. unfold run_step. by rewrite Hw, Hr. }
  rewrite (exec_cons _ _ _ _ H1) in Hx.
  apply returned_forever in Hx as (?&He&?&?); [|done..].
  unfold written. rewrite He. done.
Qed.

Lemma run_returns_without_draining_witness :
  exists s', exec (late_frame ++ [ARun; AMain; AMain; AMain])
                  (fresh quiet ∅) = Some s' /\
             main s' = MDone /\ worker s' = WReturned /\
             written s' = [mkMat 1 2 [1]] /\
             itsBuf s' = [mkMat 1 2 [2]; Mat_default].
Proof.
  destruct (exec (late_frame ++ [ARun; AMain; AMain; AMain]) (fresh quiet ∅))
    as [s'|] eqn:Hx; [|vm_compute in Hx; discriminate].
  exists s'. split; [reflexivity|].
  assert (H0 : exec late_frame (fresh quiet ∅)
               = Some (final late_frame (fresh quiet ∅)))
    by (vm_compute; reflexivity).
  assert (Hx' : exec (ARun :: [AMain; AMain; AMain])
                  (final late_frame (fresh quiet ∅)) = Some s').
  { rewrite <- Hx. vm_compute. reflexivity. }
  destruct (run_returns_without_draining (final late_frame (fresh quiet ∅))
              [AMain; AMain; AMain] s') as (Hw & Hwr & _);
    [vm_compute; reflexivity | vm_compute; reflexivity
     | vm_compute; discriminate | exact Hx' |].
  split; [vm_compute in Hx; injection Hx as <-; reflexivity|].
  split; [exact Hw|]. split.
  - rewrite Hwr. vm_compute. reflexivity.
  - vm_compute in Hx. injection Hx as <-. reflexivity.
Defined.

(** ** Further properties: what is reported on the serial port *)

Lemma write_frame_serial path frame im s s' :
  write_frame path frame im s = Some s' ->
  serial s' = (serial s ++ progress_reports frame 1)%list.
Proof.
  unfold write_frame, progress_reports, frame_numbers. intros H.
  destruct (incr_int frame) as [frame'|] eqn:Hf; simpl in H; [|done].
  apply incr_int_Some in Hf as [-> Hlt]. simplify_eq.
  simpl. rewrite Z.add_0_r.
  destruct ((frame + 1) mod 100 =? 0); simpl; [done|by rewrite app_nil_r].
Qed.

Lemma frame_numbers_S frame n :
  frame_numbers frame (S n) = (frame + 1) :: frame_numbers (frame + 1) n.
Proof.
  unfold frame_numbers. simpl. rewrite Z.add_0_r. f_equal.
  rewrite <- fmap_S_seq, <- list_fmap_compose.
  apply list_fmap_ext. intros i x _. simpl. lia.
Qed.

Lemma progress_reports_S frame n :
  progress_reports frame (S n)
  = (progress_reports frame 1 ++ progress_reports (frame + 1) n)%list.
Proof.
  unfold progress_reports. rewrite frame_numbers_S.
  unfold frame_numbers at 1. simpl. rewrite Z.add_0_r.
  by destruct ((frame + 1) mod 100 =? 0).
Qed.

(** X7. With an encoder open after [frame] frames and [n] more frames
    queued, the [2 * n] steps of [run] that write them send one
    [SAVEDNUM k] for each [k] among [frame + 1 .. frame + n] that is a
    multiple of 100, in increasing order, and nothing else. *)
Theorem progress_is_reported_every_hundredth_frame (frames : list Mat) :
  forall (s : State) (path : string) (frame : Z) (q : list Mat),
  worker s = WPop (Some path) frame ->
  itsBuf s = (frames ++ q)%list ->
  Forall (fun im => Mat_empty im = false) frames ->
  frame + Z.of_nat (length frames) <= INT_MAX ->
  exists s', exec (replicate (2 * length frames) ARun) s = Some s' /\
    serial s' = (serial s ++ progress_reports frame (length frames))%list /\
    worker s' = WPop (Some path) (frame + Z.of_nat (length frames)).
Proof.
  induction frames as [|im frames IH]; intros s path frame q Hw Hq Hf Hle.
  - exists s. simpl. rewrite app_nil_r, Z.add_0_r. done.
  - apply Forall_cons in Hf as [He Hf].
    pose (s1 := set_worker (WGot (Some path) frame im)
                  (set_itsBuf (frames ++ q) s)).
    assert (H1 : step ARun s = Some s1).
    { apply run_step_case. by apply run_pop. }
    destruct (write_frame_lt path frame im s1) as [s2 H2].
    { simpl length in Hle. lia. }
    assert (H2' : step ARun s1 = Some s2).
    { apply run_step_case. by eapply run_write. }
    pose proof (write_frame_serial _ _ _ _ _ H2) as Hser.
    apply write_frame_Some in H2 as (_&Hw2&_&_&Hb2&_).
    destruct (IH s2 path (frame + 1) q) as (s' & Hx & Hs' & Hw');
      [done | done | done | simpl length in Hle; lia |].
    exists s'. replace (2 * length (im :: frames))%nat
      with (S (S (2 * length frames))) by (simpl; lia).
    cbn [replicate]. rewrite (exec_cons _ _ _ _ H1), (exec_cons _ _ _ _ H2').
    split; [done|]. rewrite Hs', Hw', Hser. simpl length.
    rewrite (progress_reports_S frame (length frames)), <- app_assoc.
    split; [done|]. f_equal. lia.
Qed.

Lemma progress_is_reported_every_hundredth_frame_witness :
  exists s', exec (replicate 498 ARun) (long_session 250) = Some s' /\
             serial s'
             = ["SAVESTART";
                "SAVETO /jevois/data/savevideo/video000000.avi";
                "SAVEDNUM 100"; "SAVEDNUM 200"] /\
             worker s'
             = WPop (Some "/jevois/data/savevideo/video000000.avi") 250.
Proof.
  destruct (progress_is_reported_every_hundredth_frame
              (replicate 249 (mkMat 1 2 [1])) (long_session 250)
              "/jevois/data/savevideo/video000000.avi" 1 [])
    as (s' & Hx & Hs & Hw).
  - vm_compute. reflexivity.
  - vm_compute. reflexivity.
  - apply Forall_replicate. reflexivity.
  - vm_compute. discriminate.
  - exists s'. split; [exact Hx|]. split.
    + rewrite Hs. vm_compute. reflexivity.
    + exact Hw.
Defined.

Lemma progress_reports_not_announced frame :
  omap (strip_prefix "SAVETO ") (progress_reports frame 1) = [].
Proof.
  unfold progress_reports, frame_numbers. simpl.
  by destruct (_ mod 100 =? 0).
Qed.

Lemma run_case_announced s s' :
  run_case s s' ->
  exists paths, announced s' = (announced s ++ paths)%list /\
                opened s' = (opened s ++ paths)%list.
Proof.
  unfold announced, opened.
  destruct 1 as [Hw|???? Hw Hq|??? Hw He Hlt|?? Hw He|???? Hw He Hwf
                 |????? Hw Ht Hd Hlt|?????? Hw Ht Hd Ho Hwf|????? Hw Ht Hd Ho].
  - exists []. by rewrite !app_nil_r.
  - exists []. by rewrite !app_nil_r.
  - exists []. rewrite !app_nil_r. unfold writer_destroyed.
    destruct writer; simpl; [|done]. by rewrite omap_app, app_nil_r.
  - exists []. rewrite !app_nil_r. unfold start_encoder.
    by repeat (break_inner; simpl).
  - exists []. rewrite !app_nil_r.
    rewrite (write_frame_serial _ _ _ _ _ Hwf).
    apply write_frame_Some in Hwf as (_&_&->&_).
    by rewrite !omap_app, progress_reports_not_announced, !app_nil_r.
  - exists []. by rewrite !app_nil_r.
  - exists [tmp].
    rewrite (write_frame_serial _ _ _ _ _ Hwf).
    apply write_frame_Some in Hwf as (_&_&->&_). simpl.
    by rewrite !omap_app, progress_reports_not_announced, !app_nil_r.
  - exists []. by rewrite !app_nil_r.
Qed.

Lemma engine_step_announced a s s' :
  a <> ARun -> step a s = Some s' ->
  announced s' = announced s /\ opened s' = opened s.
Proof.
  intros Ha H. unfold opened.
  pose proof (engine_step _ _ _ Ha H) as (_&_&->&_). split; [|done].
  unfold announced.
  destruct a; try done; simpl in H;
    unfold when_free, main_step, process, process_nousb, parseSerial,
      sync_and_report in H;
    destruct (main s); try done; simplify_eq;
    repeat (break_inner; simpl; simplify_eq); try done;
    by rewrite omap_app, app_nil_r.
Qed.

(** X8. From the constructed module on, whatever the schedule, the files
    announced on the serial port with [SAVETO] are exactly the files the
    encoder was opened on, in the same order: every file created is
    announced once, and nothing is announced that was not created. *)
Theorem every_opened_file_is_announced (fn fcc : string) (rate : Q)
    (w : World) (d : gmap string VideoFile) (sched : list Action)
    (s : State) :
  exec sched (SaveVideo fn fcc rate w d) = Some s ->
  announced s = opened s.
Proof.
  assert (H0 : announced (SaveVideo fn fcc rate w d)
               = opened (SaveVideo fn fcc rate w d)) by done.
  revert H0. generalize (SaveVideo fn fcc rate w d).
  induction sched as [|a sched IH]; simpl; intros s0 H0 H.
  - by simplify_eq.
  - destruct (step a s0) as [s1|] eqn:Hs1; simpl in H; [|done].
    apply (IH s1); [|done].
    destruct (run_or_engine a) as [->|Ha].
    + apply run_step_case, run_case_announced in Hs1 as (ps & -> & ->).
      by rewrite H0.
    + apply engine_step_announced in Hs1 as [-> ->]; done.
Qed.

Lemma every_opened_file_is_announced_witness :
  exists s, exec two_sessions (fresh quiet old_disk) = Some s /\
            announced s = ["/jevois/data/savevideo/video000001.avi";
                           "/jevois/data/savevideo/video000002.avi"] /\
            announced s = opened s.
Proof.
  destruct (exec two_sessions (fresh quiet old_disk)) as [s|] eqn:Hx;
    [|vm_compute in Hx; discriminate].
  exists s. split; [reflexivity|].
  pose proof (every_opened_file_is_announced _ _ _ _ _ _ _ Hx) as Ha.
  split; [|exact Ha].
  vm_compute in Hx. injection Hx as <-. vm_compute. reflexivity.
Defined.

(** ** Further properties: the encoder and the files *)

Lemma replay_app can_read calls1 calls2 st :
  replay can_read (calls1 ++ calls2) st
  = replay can_read calls1 st ≫= replay can_read calls2.
Proof.
  unfold replay. rewrite foldl_app.
  destruct (foldl _ (Some st) calls1) as [st'|]; simpl; [done|].
  induction calls2; simpl; done.
Qed.

Lemma run_case_protocol d s s' :
  run_case s s' -> holds_frame s ->
  protocol_kept d s -> protocol_kept d s'.
Proof.
  unfold protocol_kept, enc_state_of, writer_of, holds_frame.
  intros H Hfr Hp.
  pose proof (run_case_fields _ _ H) as (_&_&Henv&_). rewrite Henv.
  clear Henv.
  destruct H as [Hw|???? Hw Hq|??? Hw He Hlt|?? Hw He|???? Hw He Hwf
                 |????? Hw Ht Hd Hlt|?????? Hw Ht Hd Ho Hwf|????? Hw Ht Hd Ho];
    rewrite Hw in *.
  - simpl. by destruct (itsRunning s).
  - done.
  - destruct writer as [p|]; simpl; [|done].
    rewrite replay_app, Hp. unfold replay, enc_call. simpl.
    by rewrite String.eqb_refl.
  - destruct (start_encoder_effect frame im s)
      as ([[-> _]|(?&?&->&_)]&->&->&_); done.
  - apply write_frame_Some in Hwf as (_&->&->&->&_).
    rewrite replay_app, Hp. unfold replay, enc_call. simpl.
    by rewrite String.eqb_refl, He.
  - simpl. by rewrite Hw.
  - apply write_frame_Some in Hwf as (_&->&->&->&_). simpl.
    rewrite <- app_assoc, replay_app, Hp. unfold replay. simpl.
    unfold enc_call at 2. simpl.
    assert (Hfree : match disk s !! tmp with
                    | Some _ => readable (env s) tmp
                    | None => false
                    end = false) by exact Hd.
    destruct (disk s !! tmp); [rewrite Hfree|]; simpl; unfold enc_call;
      simpl; by rewrite String.eqb_refl, Hfr, bool_decide_eq_true_2.
  - done.
Qed.

Lemma step_protocol d a s s' :
  step a s = Some s' ->
  launched_by_postInit s -> holds_frame s ->
  protocol_kept d s -> protocol_kept d s'.
Proof.
  intros H Hl Hfr Hp. destruct (run_or_engine a) as [->|Ha].
  - apply run_step_case in H. by eapply run_case_protocol.
  - pose proof H as H0.
    apply engine_step in H as (_&Hw&He&Hd&_&Henv); [|done].
    unfold protocol_kept, enc_state_of, writer_of in *.
    rewrite He, Hd, Hw, Henv.
    destruct a; try done.
    simpl in H0. destruct (main s) eqn:Hm; try done.
    by rewrite (Hl Hm) in Hp.
Qed.

(** X9. From the constructed module on, whatever the schedule, the calls
    made to the encoder respect its life and account for the disk: a file
    is opened only while none is open, and never on a file that exists and
    can be read (a file that exists and cannot be read may be opened, and
    is then started anew); the first frame follows, of the size given at
    the opening; only pictures are written, and to the open file; the file
    is released before another is opened.  Replayed on the files found at
    the start, the calls give exactly the files now on disk, and the file
    now open is the one [run] holds. *)
Theorem encoder_calls_account_for_the_disk (fn fcc : string) (rate : Q)
    (w : World) (d : gmap string VideoFile) (sched : list Action)
    (s : State) :
  exec sched (SaveVideo fn fcc rate w d) = Some s ->
  replay (readable w) (encoder s) (EncClosed, d)
  = Some (enc_state_of s, disk s).
Proof.
  intros H.
  assert (Hinv : launched_by_postInit s /\ no_sentinel_written s /\
                 protocol_kept d s /\ env s = w).
  2: { destruct Hinv as (_&_&Hp&<-). exact Hp. }
  assert (H0 : launched_by_postInit (SaveVideo fn fcc rate w d) /\
               no_sentinel_written (SaveVideo fn fcc rate w d) /\
               protocol_kept d (SaveVideo fn fcc rate w d) /\
               env (SaveVideo fn fcc rate w d) = w).
  { split; [done|]. split; [|done]. split; [constructor | exact I]. }
  revert H H0. generalize (SaveVideo fn fcc rate w d).
  induction sched as [|a sched IH]; simpl; intros s0 H (Hl & Hn & Hp & Hw).
  - by simplify_eq.
  - destruct (step a s0) as [s1|] eqn:Hs1; simpl in H; [|done].
    apply (IH s1 H). split; [by eapply step_launched|].
    split; [by eapply step_no_sentinel_written|].
    split; [|by rewrite (step_env _ _ _ Hs1)].
    eapply step_protocol; [done..|by destruct Hn|done].
Qed.

Lemma encoder_calls_account_for_the_disk_witness :
  exists s, exec two_sessions (fresh quiet old_disk) = Some s /\
            replay (readable quiet) (encoder s) (EncClosed, old_disk)
            = Some (EncClosed, disk s) /\
            length (encoder s) = 6%nat.
Proof.
  destruct (exec two_sessions (fresh quiet old_disk)) as [s|] eqn:Hx;
    [|vm_compute in Hx; discriminate].
  exists s. split; [reflexivity|].
  pose proof (encoder_calls_account_for_the_disk _ _ _ _ _ _ _ Hx) as Hr.
  assert (Hs : enc_state_of s = EncClosed /\ length (encoder s) = 6%nat).
  { vm_compute in Hx. injection Hx as <-. split; reflexivity. }
  destruct Hs as [Hs Hlen]. rewrite Hs in Hr. split; [exact Hr | exact Hlen].
Defined.

Lemma write_frame_params path frame im s s' :
  write_frame path frame im s = Some s' ->
  filename s' = filename s /\ fourcc s' = fourcc s /\ fps s' = fps s.
Proof.
  unfold write_frame. intros H.
  destruct (incr_int frame); simpl in H; [|done]. simplify_eq.
  by destruct (_ =? 0).
Qed.

Lemma run_case_params s s' :
  run_case s s' ->
  filename s' = filename s /\ fourcc s' = fourcc s /\ fps s' = fps s.
Proof.
  destruct 1 as [Hw|???? Hw Hq|??? Hw He Hlt|?? Hw He|???? Hw He Hwf
                 |????? Hw Ht Hd Hlt|?????? Hw Ht Hd Ho Hwf|????? Hw Ht Hd Ho];
    try done.
  - unfold writer_destroyed. by destruct writer.
  - unfold start_encoder. by repeat (break_inner; simpl).
  - by apply write_frame_params in Hwf.
  - by apply write_frame_params in Hwf.
Qed.

Lemma step_params a s s' :
  step a s = Some s' ->
  filename s' = filename s /\ fourcc s' = fourcc s /\ fps s' = fps s.
Proof.
  intros H. destruct (run_or_engine a) as [->|Ha].
  { by apply run_step_case, run_case_params in H. }
  destruct a; try done; simpl in H;
    unfold when_free, main_step, process, process_nousb, parseSerial,
      sync_and_report in H;
    destruct (main s); try done; simplify_eq;
    repeat (break_inner; simpl; simplify_eq); done.
Qed.

Lemma start_encoder_probes frame im s frame' im' cvfcc fn :
  worker (start_encoder frame im s) = WProbe frame' im' cvfcc fn ->
  fn = resolved (filename s) /\ cvfcc = fourcc_code (fourcc s).
Proof.
  unfold start_encoder, resolved, fourcc_code.
  destruct (String.eqb (filename s) ""); simpl; [done|].
  intros H. by simplify_eq.
Qed.

Lemma opened_as_configured_mono s s' e :
  filename s' = filename s -> fourcc s' = fourcc s -> fps s' = fps s ->
  itsFileNum s <= itsFileNum s' ->
  opened_as_configured s e -> opened_as_configured s' e.
Proof.
  intros Hf Hc Hr Hn. destruct e; simpl; try done.
  rewrite Hf, Hc, Hr. intros (?&?&n&?&?). repeat split; try done.
  exists n. split; [lia|done].
Qed.

Lemma step_names_kept a s s' :
  step a s = Some s' ->
  launched_by_postInit s -> names_kept s -> names_kept s'.
Proof.
  intros H Hl (Hn & Hpr & Hen).
  pose proof (step_params _ _ _ H) as (Hf & Hc & Hr).
  pose proof (step_counter _ _ _ H) as Hcnt.
  assert (Hle : itsFileNum s <= itsFileNum s').
  { rewrite Hcnt. destruct a; try lia. destruct (increments_counter s); lia. }
  assert (Hold : Forall (opened_as_configured s') (encoder s)).
  { eapply Forall_impl; [done|]. intros e.
    by apply opened_as_configured_mono. }
  unfold names_kept. split; [lia|].
  destruct (run_or_engine a) as [->|Ha].
  - apply run_step_case in H. unfold probes_configured_name in *.
    rewrite Hf, Hc.
    destruct H as [Hw|???? Hw Hq|??? Hw He Hlt|?? Hw He|???? Hw He Hwf
                   |????? Hw Ht Hd Hlt|?????? Hw Ht Hd Ho Hwf
                   |????? Hw Ht Hd Ho]; rewrite ?Hw in Hpr.
    + split; [by destruct (itsRunning s)|done].
    + done.
    + split; [done|]. unfold writer_destroyed. destruct writer; simpl; [|done].
      apply Forall_app. split; [done|]. by repeat constructor.
    + destruct (start_encoder_effect frame im s) as (_&He'&_).
      rewrite He' in *. split; [|done].
      destruct (worker (start_encoder frame im s)) eqn:Hw'; try done.
      by apply start_encoder_probes in Hw'.
    + apply write_frame_Some in Hwf as (_&Hw'&He'&_).
      rewrite Hw', He' in *. split; [done|].
      apply Forall_app. split; [done|]. by repeat constructor.
    + simpl. by rewrite Hw.
    + apply write_frame_Some in Hwf as (_&Hw'&He'&_&_&Hn'&_).
      rewrite Hw', He' in *. split; [done|]. simpl.
      rewrite !Forall_app. split; [split; [done|]|by repeat constructor].
      repeat constructor; simpl.
      * rewrite Hc. by destruct Hpr.
      * by rewrite Hr.
      * exists (itsFileNum s). rewrite Hf. destruct Hpr as [<- _].
        split; [lia|done].
    + done.
  - pose proof H as H0. apply engine_step in H as (_&Hw&He&_); [|done].
    unfold probes_configured_name in *. rewrite He, Hw, Hf, Hc.
    split; [|done]. destruct a; try done.
Qed.

Lemma snprintf_absolute fn n path :
  snprintf 2047 fn n = Some path ->
  char_at fn 0 = "/"%char -> char_at path 0 = "/"%char.
Proof.
  unfold snprintf, char_at. destruct fn as [|c fn]; simpl; [done|].
  intros H ->. simpl in H.
  destruct (vformat fn FLit (Some n)) as [x|]; simpl in H; [|done].
  by simplify_eq.
Qed.

Lemma vformat_literal_char c fmt arg :
  Ascii.eqb c "%" = false ->
  vformat (String c fmt) FLit arg = String c <$> vformat fmt FLit arg.
Proof. intros H. cbn [vformat]. by rewrite H. Qed.

Lemma substring_app_prefix p : forall n x,
  (String.length p <= n)%nat ->
  substring 0 n (p +:+ x) = p +:+ substring 0 (n - String.length p) x.
Proof.
  induction p as [|c p IH]; intros n x H.
  - simpl. by rewrite Nat.sub_0_r.
  - destruct n as [|n]; [simpl in H; lia|].
    simpl. rewrite IH by (simpl in H; lia). reflexivity.
Qed.

Lemma vformat_literal p : forall fmt arg,
  forallb (fun c => negb (Ascii.eqb c "%")) (list_ascii_of_string p) = true ->
  vformat (p +:+ fmt) FLit arg = String.append p <$> vformat fmt FLit arg.
Proof.
  induction p as [|c p IH]; intros fmt arg H.
  - change ("" +:+ fmt) with fmt. by destruct (vformat fmt FLit arg).
  - simpl in H. apply andb_true_iff in H as [Hc H].
    apply negb_true_iff in Hc.
    change (String c p +:+ fmt) with (String c (p +:+ fmt)).
    rewrite vformat_literal_char, IH by done.
    by destruct (vformat fmt FLit arg).
Qed.

Lemma snprintf_under_prefix fn n path :
  snprintf 2047 (PATHPREFIX +:+ fn) n = Some path ->
  exists rest, path = PATHPREFIX +:+ rest.
Proof.
  unfold snprintf. rewrite vformat_literal by (vm_compute; reflexivity).
  destruct (vformat fn FLit (Some n)) as [x|]; [|done].
  cbn [fmap option_fmap option_map]. intros [= <-].
  rewrite substring_app_prefix; [eauto|].
  apply Nat.leb_le. vm_compute. reflexivity.
Qed.

(** X10. From the constructed module on, whatever the schedule, every file
    the encoder is opened on is named by the configured file name,
    formatted with a value the counter has had, and is opened with the
    code of the configured codec and the configured frame rate.  Its path
    is absolute: a configured name that does not start with a slash is
    placed under [/jevois/data/savevideo/]. *)
Theorem files_are_named_as_configured (fn fcc : string) (rate : Q)
    (w : World) (d : gmap string VideoFile) (sched : list Action)
    (s : State) (path : string) (cvfcc : Z) (rate' : Q) (dims : nat * nat) :
  exec sched (SaveVideo fn fcc rate w d) = Some s ->
  In (EncOpen path cvfcc rate' dims) (encoder s) ->
  cvfcc = fourcc_code fcc /\ rate' = rate /\
  (exists n, 0 <= n <= itsFileNum s /\
             snprintf 2047 (resolved fn) n = Some path) /\
  char_at path 0 = "/"%char /\
  (char_at fn 0 <> "/"%char -> exists rest, path = PATHPREFIX +:+ rest).
Proof.
  intros H Hin.
  assert (Hinv : launched_by_postInit s /\ names_kept s /\
                 filename s = fn /\ fourcc s = fcc /\ fps s = rate).
  { assert (H0 : launched_by_postInit (SaveVideo fn fcc rate w d) /\
                 names_kept (SaveVideo fn fcc rate w d) /\
                 filename (SaveVideo fn fcc rate w d) = fn /\
                 fourcc (SaveVideo fn fcc rate w d) = fcc /\
                 fps (SaveVideo fn fcc rate w d) = rate).
    { repeat split; try done; constructor. }
    revert H H0. generalize (SaveVideo fn fcc rate w d). clear Hin.
    induction sched as [|a sched IH]; simpl; intros s0 H (Hl&Hn&Hf&Hc&Hr).
    - by simplify_eq.
    - destruct (step a s0) as [s1|] eqn:Hs1; simpl in H; [|done].
      apply (IH s1 H). pose proof (step_params _ _ _ Hs1) as (?&?&?).
      split; [by eapply step_launched|].
      split; [by eapply step_names_kept|]. split; [congruence|].
      split; congruence. }
  destruct Hinv as (_ & (_ & _ & Hen) & Hf & Hc & Hr).
  rewrite Forall_forall in Hen. rewrite <- list_elem_of_In in Hin.
  apply Hen in Hin. simpl in Hin.
  rewrite Hf, Hc, Hr in Hin. destruct Hin as (-> & -> & n & Hn & Hs).
  split; [done|]. split; [done|]. split; [eauto|].
  unfold resolved in Hs. destruct (Ascii.eqb_spec (char_at fn 0) "/") as [He|He].
  - split; [by eapply snprintf_absolute|done].
  - apply snprintf_under_prefix in Hs as [rest ->]. split; [done|eauto].
Qed.

Lemma files_are_named_as_configured_witness :
  exists s, exec two_sessions (fresh quiet old_disk) = Some s /\
            exists n, 0 <= n <= itsFileNum s /\
                      snprintf 2047 (resolved "video%06d.avi") n
                      = Some "/jevois/data/savevideo/video000002.avi".
Proof.
  destruct (exec two_sessions (fresh quiet old_disk)) as [s|] eqn:Hx;
    [|vm_compute in Hx; discriminate].
  exists s. split; [reflexivity|].
  destruct (files_are_named_as_configured _ _ _ _ _ _ _
              "/jevois/data/savevideo/video000002.avi" 1196444237 (30 # 1)
              (2%nat, 1%nat) Hx) as (_ & _ & Hn & _).
  - vm_compute in Hx. injection Hx as <-. vm_compute. auto 10.
  - exact Hn.
Defined.

(** ** Further properties: shutdown *)

Lemma main_step_running s s' :
  main_step s = Some s' -> itsRunning s' = itsRunning s.
Proof.
  unfold main_step. intros H.
  destruct (main s); try done.
  - destruct (filled_size s =? 0); injection H as <-; [|done].
    by destruct (sync_and_report_effect s) as (_&_&_&_&_&_&_&_&?&_).
  - by injection H as <-.
  - by injection H as <-.
  - by injection H as <-.
  - destruct (worker s); try done; injection H as <-.
    + by destruct (sync_and_report_effect s) as (_&_&_&_&_&_&_&_&?&_).
    + by destruct (sync_and_report_effect (log LERROR what s))
        as (_&_&_&_&_&_&_&_&?&_).
Qed.

Section Shutdown.

(** The state in which [postUninit] is called, the file [run] has open and
    the frames queued then. *)
Variables (s0 : State) (path : string) (frames : list Mat).
Hypothesis frames_real : Forall (fun im => Mat_empty im = false) frames.

Lemma shutdown_phase_main s s' :
  main_step s = Some s' ->
  shutdown_phase s0 path frames s -> shutdown_phase s0 path frames s'.
Proof.
  unfold main_step. intros H Hph.
  destruct Hph as [past rest tail frame Hfr Hen Hm Hw
                  |frame Hw Hq Hm Hen|Hw Hq Hen].
  - destruct Hm as [[Hm ->]|[[Hm|Hm] ->]]; rewrite Hm in H.
    + injection H as <-.
      apply (sp_draining _ _ _ _ past rest [Mat_default] frame);
        simpl; try done.
      * right. split; [by left|done].
      * destruct Hw as [[Hw ->]|(im & rest' & -> & Hw & ->)].
        -- left. by rewrite app_nil_r.
        -- right. exists im, rest'. by rewrite app_nil_r.
    + injection H as <-.
      apply (sp_draining _ _ _ _ past rest [Mat_default] frame);
        simpl; try done.
      right. split; [by right|done].
    + destruct Hw as [[Hw _]|(?&?&_&Hw&_)]; by rewrite Hw in H.
  - destruct Hm as [Hm|Hm]; rewrite Hm in H.
    + injection H as <-. apply (sp_closing _ _ _ _ frame); simpl; try done.
      by right.
    + by rewrite Hw in H.
  - destruct Hw as [[Hw [Hm|Hm]]|[Hw [Hm|[Hm|Hm]]]]; rewrite Hm in H;
      try done.
    + injection H as <-. apply sp_closed; simpl; try done.
      left. split; [done|by right].
    + by rewrite Hw in H.
    + injection H as <-. apply sp_closed; simpl; try done.
      right. split; [done|]. right. by left.
    + rewrite Hw in H. injection H as <-.
      destruct (sync_and_report_effect s) as (Hw'&He'&_&Hq'&_).
      apply sp_closed; cbn; rewrite ?Hw', ?He', ?Hq'; try done.
      right. split; [done|]. right. by right.
Qed.

Lemma shutdown_phase_run s s' :
  itsRunning s = false ->
  run_step s = Some s' ->
  shutdown_phase s0 path frames s -> shutdown_phase s0 path frames s'.
Proof.
  intros Hr H Hph.
  assert (Hm' : main s' = main s).
  { by apply run_step_case, run_case_fields in H as (?&_). }
  unfold run_step in H.
  destruct Hph as [past rest tail frame Hfr Hen Hm Hw
                  |frame Hw Hq Hm Hen|Hw Hq Hen].
  - destruct Hw as [[Hw Hq]|(im & rest' & Hrest & Hw & Hq)];
      rewrite Hw in H.
    + (* [run] pops *)
      unfold pop in H. rewrite Hq in H. destruct rest as [|im rest'].
      * rewrite app_nil_r in Hfr.
        destruct Hm as [[_ ->]|[Hm ->]]; simpl in H; [done|].
        injection H as <-. apply (sp_closing _ _ _ _ frame); simpl; try done.
        by rewrite Hfr.
      * simpl in H. injection H as <-.
        apply (sp_draining _ _ _ _ past (im :: rest') tail frame);
          simpl; try done.
        right. by exists im, rest'.
    + (* [run] writes *)
      assert (He : Mat_empty im = false).
      { pose proof frames_real as Hf. rewrite Hfr, Hrest in Hf.
        apply Forall_app in Hf as [_ Hf].
        by apply Forall_cons in Hf as [? _]. }
      rewrite He in H.
      apply write_frame_Some in H as (_&Hw2&Hen2&_&Hq2&_).
      apply (sp_draining _ _ _ _ (past ++ [im]) rest' tail (frame + 1)).
      * by rewrite Hfr, Hrest, <- app_assoc.
      * by rewrite Hen2, Hen, fmap_app, <- app_assoc.
      * by rewrite Hm'.
      * left. by rewrite Hw2, Hq2.
  - (* [run] ends the session *)
    rewrite Hw in H. change (Mat_empty Mat_default) with true in H.
    cbv iota in H.
    destruct (incr_int (itsFileNum s)) as [n|]; simpl in H; [|done].
    injection H as <-.
    apply sp_closed; unfold writer_destroyed; simpl; try done.
    + by left.
    + by rewrite Hen, <- app_assoc.
  - (* [run] returns *)
    destruct Hw as [[Hw Hm]|[Hw _]]; rewrite Hw in H; [|done].
    rewrite Hr in H. injection H as <-.
    apply sp_closed; simpl; try done.
    right. split; [done|]. destruct Hm; auto.
Qed.

Lemma shutdown_phase_step a s s' :
  step a s = Some s' ->
  itsRunning s = false /\ shutdown_phase s0 path frames s ->
  (itsRunning s' = false /\ shutdown_phase s0 path frames s') /\
  (a = AMain \/ a = ARun).
Proof.
  intros H [Hr Hph].
  assert (Hm : main s <> MNew /\ main s <> MFree).
  { destruct Hph as [???? _ _ [[Hm _]|[[Hm|Hm] _]] _|? _ _ [Hm|Hm] _
                    |[[_ [Hm|Hm]]|[_ [Hm|[Hm|Hm]]]] _ _];
      rewrite Hm; done. }
  destruct Hm as [Hn Hf].
  destruct a; simpl in H; unfold when_free in H;
    try (destruct (main s); done).
  - split; [|by left]. split; [|by eapply shutdown_phase_main].
    by rewrite (main_step_running _ _ H).
  - split; [|by right]. split; [|by eapply shutdown_phase_run].
    apply run_step_case, run_case_fields in H as (_&?&_). congruence.
Qed.

End Shutdown.

Lemma exec_app sched1 sched2 s :
  exec (sched1 ++ sched2) s = exec sched1 s ≫= exec sched2.
Proof.
  revert s. induction sched1 as [|a sched1 IH]; intros s; simpl; [done|].
  destruct (step a s); simpl; [apply IH|done].
Qed.

Lemma written_of_writes path (frames : list Mat) :
  omap frame_of (EncWrite path <$> frames) = frames.
Proof.
  induction frames as [|im frames IH]; [done|].
  rewrite fmap_cons. cbn [omap list_omap frame_of]. f_equal. exact IH.
Qed.

Lemma run_drains_keeps frames : forall s path frame q s',
  worker s = WPop (Some path) frame ->
  itsBuf s = (frames ++ q)%list ->
  Forall (fun im => Mat_empty im = false) frames ->
  exec (replicate (2 * length frames) ARun) s = Some s' ->
  itsFileNum s' = itsFileNum s /\ main s' = main s /\
  itsRunning s' = itsRunning s.
Proof.
  induction frames as [|im frames IH]; intros s path frame q s' Hw Hq Hf Hx.
  - simpl in Hx. by simplify_eq.
  - apply Forall_cons in Hf as [He Hf].
    replace (2 * length (im :: frames))%nat
      with (S (S (2 * length frames))) in Hx by (simpl; lia).
    cbn [replicate] in Hx.
    pose (s1 := set_worker (WGot (Some path) frame im)
                  (set_itsBuf (frames ++ q) s)).
    assert (H1 : step ARun s = Some s1).
    { apply run_step_case. by apply run_pop. }
    rewrite (exec_cons _ _ _ _ H1) in Hx.
    cbn [exec] in Hx.
    destruct (step ARun s1) as [s2|] eqn:H2; [|done].
    cbn [mbind option_bind] in Hx. fold exec in Hx.
    assert (Hwf : write_frame path frame im s1 = Some s2).
    { rewrite <- H2. simpl. unfold run_step.
      change (worker s1) with (WGot (Some path) frame im). cbv iota.
      by rewrite He. }
    apply write_frame_Some in Hwf as (_&Hw2&_&_&Hq2&Hn2&_&Hm2&_&Hr2&_).
    destruct (IH s2 path (frame + 1) q s') as (Hn & Hm & Hr); try done.
    by rewrite Hn, Hm, Hr, Hn2, Hm2, Hr2.
Qed.

(** X11. When [postUninit] is called while [run] waits in [pop] with the
    encoder open and frames queued, then on every schedule, once
    [postUninit] has returned, [run] has returned too, the queue is empty,
    and the encoder has received exactly the queued frames, in queue
    order, followed by the release of the file: the join at line 122 waits
    for the destructor of [writer].  No other call of the engine is served
    in between.  And the schedule on which each thread runs to its end
    completes. *)
Theorem shutdown_drains_the_queue (s0 : State) (path : string) (frame : Z)
    (frames : list Mat) :
  main s0 = MFree -> worker s0 = WPop (Some path) frame ->
  itsBuf s0 = frames ->
  Forall (fun im => Mat_empty im = false) frames ->
  (forall sched s',
     exec (APostUninit :: sched) s0 = Some s' ->
     threads_only sched /\
     (main s' = MDone ->
      worker s' = WReturned /\ itsBuf s' = [] /\
      encoder s' = (encoder s0 ++ (EncWrite path <$> frames)
                    ++ [EncRelease path])%list /\
      written s' = (written s0 ++ frames)%list)) /\
  (frame + Z.of_nat (length frames) <= INT_MAX -> itsFileNum s0 < INT_MAX ->
   exists s', exec (shutdown_schedule (length frames)) s0 = Some s' /\
              main s' = MDone).
Proof.
  intros Hm Hw Hq Hf.
  assert (H1 : step APostUninit s0 = Some (postUninit s0)).
  { simpl. unfold when_free. by rewrite Hm. }
  split.
  - intros sched s' Hx. rewrite (exec_cons _ _ _ _ H1) in Hx.
    assert (H0 : itsRunning (postUninit s0) = false /\
                 shutdown_phase s0 path frames (postUninit s0)).
    { split; [done|].
      apply (sp_draining _ _ _ _ [] frames [] frame); simpl.
      - done.
      - by rewrite app_nil_r.
      - by left.
      - left. by rewrite app_nil_r. }
    assert (Hinv : (itsRunning s' = false /\
                    shutdown_phase s0 path frames s') /\
                   threads_only sched).
    { revert Hx H0. generalize (postUninit s0).
      induction sched as [|a sched IH]; simpl; intros s1 Hx H0.
      - simplify_eq. split; [done|constructor].
      - destruct (step a s1) as [s2|] eqn:Hs2; simpl in Hx; [|done].
        destruct (shutdown_phase_step _ _ _ Hf _ _ _ Hs2 H0) as [H2 Ha].
        destruct (IH s2 Hx H2) as [? ?]. split; [done|].
        by constructor. }
    destruct Hinv as [[_ Hph] Hs]. split; [done|]. intros Hd.
    destruct Hph as [???? _ _ [[Hm' _]|[[Hm'|Hm'] _]] _|? _ _ [Hm'|Hm'] _
                    |[[_ [Hm'|Hm']]|[Hw' _]] Hq' Hen'];
      try (rewrite Hm' in Hd; done).
    repeat split; try done.
    unfold written. rewrite Hen', !omap_app, written_of_writes. simpl.
    by rewrite app_nil_r.
  - intros Hle Hlt.
    pose (s1 := postUninit s0).
    pose (s2 := set_main MUninitLog (push Mat_default s1)).
    pose (s3 := set_main MJoin (log LINFO (waiting_message s2) s2)).
    assert (H2 : step AMain s1 = Some s2) by reflexivity.
    assert (H3 : step AMain s2 = Some s3) by reflexivity.
    destruct (run_drains frames s3 path frame [Mat_default])
      as (s4 & Hx4 & _ & Hq4 & Hw4); try done.
    { simpl. by rewrite Hq. }
    destruct (run_drains_keeps frames s3 path frame [Mat_default] s4)
      as (Hn4 & Hm4 & Hr4); try done.
    { simpl. by rewrite Hq. }
    pose (s5 := set_worker (WGot (Some path)
                              (frame + Z.of_nat (length frames)) Mat_default)
                  (set_itsBuf [] s4)).
    pose (s6 := set_worker WHead
                  (writer_destroyed (Some path)
                     (set_itsFileNum (itsFileNum s5 + 1) s5))).
    pose (s7 := set_worker WReturned s6).
    pose (s8 := set_main MDone (sync_and_report s7)).
    assert (H5 : step ARun s4 = Some s5).
    { apply run_step_case. by apply run_pop. }
    assert (H6 : step ARun s5 = Some s6).
    { apply run_step_case. eapply run_close; [done..|].
      change (itsFileNum s5) with (itsFileNum s4). by rewrite Hn4. }
    assert (H7 : step ARun s6 = Some s7).
    { simpl. unfold run_step. change (worker s6) with WHead. cbv iota.
      change (itsRunning s6) with (itsRunning s4). by rewrite Hr4. }
    assert (H8 : step AMain s7 = Some s8).
    { simpl. unfold main_step. change (main s7) with (main s4).
      by rewrite Hm4. }
    exists s8. split; [|done].
    unfold shutdown_schedule.
    rewrite replicate_add.
    change ([APostUninit; AMain; AMain]
            ++ (replicate (2 * length frames) ARun ++ replicate 3 ARun)
            ++ [AMain])%list
      with (APostUninit :: AMain :: AMain
            :: ((replicate (2 * length frames) ARun ++ replicate 3 ARun)
                ++ [AMain]))%list.
    rewrite (exec_cons _ _ _ _ H1), (exec_cons _ _ _ _ H2),
      (exec_cons _ _ _ _ H3).
    rewrite <- app_assoc, exec_app, Hx4. cbn [mbind option_bind].
    cbn [replicate app].
    by rewrite (exec_cons _ _ _ _ H5), (exec_cons _ _ _ _ H6),
      (exec_cons _ _ _ _ H7), (exec_cons _ _ _ _ H8).
Qed.

Lemma shutdown_drains_the_queue_witness :
  exists s', exec (shutdown_schedule 2) busy_session = Some s' /\
             main s' = MDone /\ worker s' = WReturned /\
             written s' = [mkMat 1 2 [1]; mkMat 1 2 [2]; mkMat 1 2 [3]].
Proof.
  destruct (shutdown_drains_the_queue busy_session
              "/jevois/data/savevideo/video000000.avi" 1
              [mkMat 1 2 [2]; mkMat 1 2 [3]]) as [Ha Hb].
  - vm_compute. reflexivity.
  - vm_compute. reflexivity.
  - vm_compute. reflexivity.
  - repeat (constructor; [reflexivity|]). constructor.
  - destruct Hb as (s' & Hx & Hm); [vm_compute; discriminate | reflexivity |].
    exists s'. split; [exact Hx|]. split; [exact Hm|].
    destruct (Ha _ _ Hx) as [_ Hd]. destruct (Hd Hm) as (Hw & _ & _ & Hwr).
    split; [exact Hw|]. rewrite Hwr. vm_compute. reflexivity.
Defined.

(** ** Further properties: the stop command, the directory, the codec *)

(** X12. A call of [parseSerial("stop")] returns only on an empty queue:
    whatever state it is called in and whatever the two threads do, when
    its loop is left every item pushed before, the empty image included,
    has been popped by [run], and the queue stays empty as long as the
    engine makes no new call. *)
Theorem stop_returns_on_empty_queue (s : State) (sched : list Action)
    (s' : State) :
  main s = MFree -> threads_only sched ->
  exec (AParseSerial "stop" :: sched) s = Some s' ->
  (in_stop s' \/ main s' = MFree) /\
  (main s' = MFree -> itsBuf s' = []) /\
  itsSaving s' = false.
Proof.
  intros Hm Hs Hx.
  assert (H1 : step (AParseSerial "stop") s
               = Some (state_of (parseSerial "stop" s))).
  { simpl. unfold when_free. by rewrite Hm. }
  rewrite (exec_cons _ _ _ _ H1) in Hx.
  assert (H0 : (in_stop (state_of (parseSerial "stop" s)) \/
                main (state_of (parseSerial "stop" s)) = MFree /\
                itsBuf (state_of (parseSerial "stop" s)) = []) /\
               itsSaving (state_of (parseSerial "stop" s)) = false).
  { split; [|done]. left. by left. }
  assert (Hinv : (in_stop s' \/ main s' = MFree /\ itsBuf s' = []) /\
                 itsSaving s' = false).
  { revert Hx H0. generalize (state_of (parseSerial "stop" s)).
    induction Hs as [|a sched [->| ->] _ IH]; simpl; intros s1 Hx [H0 Hsv].
    - by simplify_eq.
    - destruct (main_step s1) as [s2|] eqn:Hs2; simpl in Hx; [|done].
      apply (IH s2 Hx). unfold main_step, in_stop in *.
      destruct H0 as [[Hm1|Hm1]|[Hm1 _]]; rewrite Hm1 in Hs2; [| |done].
      + destruct (filled_size s1 =? 0) eqn:Hz; injection Hs2 as <-.
        * apply filled_size_zero in Hz.
          destruct (sync_and_report_effect s1) as (_&_&_&Hq&_&_&_&_&_&Hv).
          cbn. rewrite Hq, Hv. split; [by right|done].
        * simpl. split; [by left; right|done].
      + injection Hs2 as <-. simpl. split; [by left; left|done].
    - destruct (run_step s1) as [s2|] eqn:Hs2; simpl in Hx; [|done].
      apply (IH s2 Hx). apply run_step_case in Hs2.
      destruct (run_case_fields _ _ Hs2) as (Hm2&_&_&Hv2).
      destruct (run_case_queue _ _ Hs2) as [_ Hq2].
      unfold in_stop in *. rewrite Hm2, Hv2. split; [|done].
      destruct H0 as [?|[? Hq]]; [by left|]. right. split; [done|].
      destruct Hq2 as [->|[im Hq2]]; [done|]. by rewrite Hq in Hq2. }
  destruct Hinv as [[Hin|[Hf Hq]] Hv].
  - split; [by left|]. split; [|done].
    intros Hf. destruct Hin as [Hin|Hin]; by rewrite Hin in Hf.
  - split; [by right|]. by split.
Qed.

Lemma stop_returns_on_empty_queue_witness :
  exists s', exec (AParseSerial "stop" :: [ARun; ARun; ARun; ARun; ARun; AMain])
                  busy_session = Some s' /\
             main s' = MFree /\ itsBuf s' = [].
Proof.
  destruct (exec (AParseSerial "stop" :: [ARun; ARun; ARun; ARun; ARun; AMain])
              busy_session) as [s'|] eqn:Hx; [|vm_compute in Hx; discriminate].
  exists s'. split; [reflexivity|].
  assert (Hm : main s' = MFree).
  { vm_compute in Hx. injection Hx as <-. reflexivity. }
  split; [exact Hm|].
  destruct (stop_returns_on_empty_queue busy_session
              [ARun; ARun; ARun; ARun; ARun; AMain] s') as (_ & Hq & _).
  - vm_compute. reflexivity.
  - unfold threads_only. repeat (constructor; [auto|]). constructor.
  - exact Hx.
  - exact (Hq Hm).
Defined.

Lemma rfind_split s c : forall i,
  rfind s c = Some i ->
  exists base, s = substring 0 i s +:+ String c base /\ rfind base c = None.
Proof.
  induction s as [|a rest IH]; intros i H; simpl in H; [done|].
  destruct (rfind rest c) as [j|] eqn:Hr.
  - injection H as <-. destruct (IH j eq_refl) as (base & Hs & Hb).
    exists base. split; [|done]. simpl.
    change (String a (substring 0 j rest) +:+ String c base)
      with (String a (substring 0 j rest +:+ String c base)).
    by rewrite <- Hs.
  - destruct (Ascii.eqb_spec a c) as [->|]; [|done]. injection H as <-.
    exists rest. split; [|done]. by destruct rest.
Qed.

Lemma rfind_none_no_slash s : rfind s "/" = None -> no_slash s = true.
Proof.
  induction s as [|a rest IH]; simpl; [done|].
  destruct (rfind rest "/"); [done|].
  destruct (Ascii.eqb a "/"); [done|]. intros _. by apply IH.
Qed.

Lemma rfind_leading_slash rest : is_Some (rfind (String "/" rest) "/").
Proof. simpl. destruct (rfind rest "/"); eauto. Qed.

Lemma resolved_leading_slash fn :
  fn <> "" -> exists rest, resolved fn = String "/" rest.
Proof.
  intros Hne. unfold resolved, char_at.
  destruct fn as [|c fn]; [done|]. simpl.
  destruct (Ascii.eqb_spec c "/") as [->|_]; eauto.
Qed.

Lemma start_encoder_named frame im s :
  filename s <> "" ->
  start_encoder frame im s
  = set_worker (WProbe frame im (fourcc_code (fourcc s))
                       (resolved (filename s)))
      (if system (env s) (mkdir_command (resolved (filename s))) =? 0 then s
       else log LERROR ("Error running ["
                        +:+ mkdir_command (resolved (filename s))
                        +:+ "] -- IGNORED") s).
Proof.
  intros Hne. unfold start_encoder.
  by destruct (String.eqb_spec (filename s) "").
Qed.

(** X13. With a non-empty file name, the first picture of a session makes
    [run] ask for the directory of the file it is about to probe: the
    resolved name up to its last slash, the rest of the name having no
    slash.  Whether the command succeeds or not, [run] goes on to probe
    that name; a failure only adds one [LERROR] that quotes the command. *)
Theorem directory_of_the_file_is_requested (s : State) (frame : Z)
    (im : Mat) :
  worker s = WGot None frame im -> Mat_empty im = false ->
  filename s <> "" ->
  exists dir base s',
    resolved (filename s) = dir +:+ String "/" base /\
    no_slash base = true /\
    run_step s = Some s' /\
    worker s' = WProbe frame im (fourcc_code (fourcc s))
                       (resolved (filename s)) /\
    logs s' = (logs s ++
               if system (env s) ("/bin/mkdir -p " +:+ dir) =? 0 then []
               else [(LERROR, "Error running [" +:+ ("/bin/mkdir -p " +:+ dir)
                              +:+ "] -- IGNORED")])%list /\
    encoder s' = encoder s /\ disk s' = disk s /\
    itsFileNum s' = itsFileNum s.
Proof.
  intros Hw He Hne.
  destruct (resolved_leading_slash _ Hne) as [rest Hres].
  destruct (rfind_leading_slash rest) as [i Hi]. rewrite <- Hres in Hi.
  destruct (rfind_split _ _ _ Hi) as (base & Hsplit & Hbase).
  exists (substring 0 i (resolved (filename s))), base,
    (start_encoder frame im s).
  split; [done|]. split; [by apply rfind_none_no_slash|].
  split; [apply run_step_case; by apply run_start|].
  rewrite (start_encoder_named _ _ _ Hne).
  unfold mkdir_command, substr_to_rfind. rewrite Hi.
  destruct (system (env s) _ =? 0); simpl; repeat split; try done.
  by rewrite app_nil_r.
Qed.

Lemma directory_of_the_file_is_requested_witness :
  exists dir base s',
    resolved "video%06d.avi" = dir +:+ String "/" base /\
    no_slash base = true /\
    run_step (final [APostInit; ARun; AParseSerial "start";
                     AProcessNoUsb (yuyv 1); ARun] (fresh quiet ∅))
    = Some s' /\ logs s' = [].
Proof.
  destruct (directory_of_the_file_is_requested
              (final [APostInit; ARun; AParseSerial "start";
                      AProcessNoUsb (yuyv 1); ARun] (fresh quiet ∅))
              0 (mkMat 1 2 [1]))
    as (dir & base & s' & Hr & Hb & Hs & _ & Hl & _).
  - vm_compute. reflexivity.
  - reflexivity.
  - vm_compute. discriminate.
  - exists dir, base, s'. split; [exact Hr|]. split; [exact Hb|].
    split; [exact Hs|]. rewrite Hl. reflexivity.
Defined.

Lemma byte_bits_high n k : 0 <= n < 256 -> 8 <= k -> Z.testbit n k = false.
Proof.
  intros Hn Hk. destruct (Z.eq_dec n 0) as [->|Hz]; [apply Z.testbit_0_l|].
  apply Z.bits_above_log2; [lia|].
  assert (Z.log2 n < 8); [|lia]. apply Z.log2_lt_pow2; lia.
Qed.

Lemma low_byte n x : 0 <= n < 256 -> Z.land (Z.lor n (Z.shiftl x 8)) 255 = n.
Proof.
  intros Hn. apply Z.bits_inj'. intros k Hk.
  rewrite Z.land_spec, Z.lor_spec, Z.shiftl_spec by lia.
  change 255 with (Z.ones 8).
  destruct (Z.lt_ge_cases k 8).
  - rewrite Z.ones_spec_low, (Z.testbit_neg_r x) by lia.
    by rewrite orb_false_r, andb_true_r.
  - rewrite Z.ones_spec_high, byte_bits_high by lia. by rewrite andb_false_r.
Qed.

Lemma high_bytes n x : 0 <= n < 256 -> Z.shiftr (Z.lor n (Z.shiftl x 8)) 8 = x.
Proof.
  intros Hn. apply Z.bits_inj'. intros k Hk.
  rewrite Z.shiftr_spec, Z.lor_spec, Z.shiftl_spec by lia.
  rewrite byte_bits_high by lia. simpl. f_equal. lia.
Qed.

Lemma ascii_byte c : 0 <= Z.of_nat (nat_of_ascii c) < 256.
Proof. pose proof (nat_ascii_bounded c). lia. Qed.

Lemma land_byte n : 0 <= n < 256 -> Z.land n 255 = n.
Proof.
  intros Hn. rewrite <- (Z.lor_0_r n) at 1.
  change 0 with (Z.shiftl 0 8). by apply low_byte.
Qed.

Lemma fourcc_nested c1 c2 c3 c4 :
  VideoWriter_fourcc c1 c2 c3 c4
  = Z.lor (Z.of_nat (nat_of_ascii c1))
      (Z.shiftl
         (Z.lor (Z.of_nat (nat_of_ascii c2))
            (Z.shiftl
               (Z.lor (Z.of_nat (nat_of_ascii c3))
                  (Z.shiftl (Z.of_nat (nat_of_ascii c4)) 8)) 8)) 8).
Proof.
  unfold VideoWriter_fourcc.
  rewrite !land_byte by apply ascii_byte.
  rewrite !Z.shiftl_lor, !Z.shiftl_shiftl by lia. done.
Qed.

(** X14. The code that line 250 computes from a codec name of four
    characters keeps the name: its four bytes, lowest first, are the four
    characters in order.  So two different names of four characters never
    give the same code. *)
Theorem fourcc_code_keeps_the_name (fcc : string) :
  String.length fcc = 4%nat ->
  fourcc_chars (fourcc_code fcc) = fcc /\
  forall fcc', String.length fcc' = 4%nat ->
               fourcc_code fcc' = fourcc_code fcc -> fcc' = fcc.
Proof.
  assert (Hround : forall a, String.length a = 4%nat ->
                             fourcc_chars (fourcc_code a) = a).
  { intros a Ha.
    destruct a as [|c1 [|c2 [|c3 [|c4 [|]]]]]; try done.
    unfold fourcc_code, fourcc_chars, char_at. simpl String.get. cbv iota.
    rewrite fourcc_nested.
    match goal with |- context [Z.shiftr ?code 24] =>
      replace (Z.shiftr code 16) with (Z.shiftr (Z.shiftr code 8) 8)
        by (by rewrite Z.shiftr_shiftr by lia);
      replace (Z.shiftr code 24)
        with (Z.shiftr (Z.shiftr (Z.shiftr code 8) 8) 8)
        by (by rewrite !Z.shiftr_shiftr by lia)
    end.
    rewrite !high_bytes by apply ascii_byte.
    rewrite !low_byte by apply ascii_byte.
    rewrite land_byte by apply ascii_byte.
    by rewrite !Nat2Z.id, !ascii_nat_embedding. }
  intros H. split; [by apply Hround|].
  intros fcc' H' Heq. rewrite <- (Hround fcc' H'), Heq. by apply Hround.
Qed.

Lemma fourcc_code_keeps_the_name_witness :
  fourcc_chars (fourcc_code "MJPG") = "MJPG" /\ fourcc_code "MJPG" = 1196444237.
Proof.
  destruct (fourcc_code_keeps_the_name "MJPG") as [Ha _]; [reflexivity|].
  split; [exact Ha | reflexivity].
Defined.

(** * The frame count and the recorded file name *)

Lemma run_case_count_matches s s' :
  run_case s s' -> count_matches_file s -> count_matches_file s'.
Proof.
  unfold count_matches_file. intros H Hc.
  destruct H as [Hw|???? Hw Hq|??? Hw He Hlt|?? Hw He|???? Hw He Hwf
                 |????? Hw Ht Hd Hlt|?????? Hw Ht Hd Ho Hwf|????? Hw Ht Hd Ho];
    rewrite Hw in Hc.
  - simpl. by destruct (itsRunning s).
  - done.
  - destruct (writer_destroyed_effect writer
                (set_itsFileNum (itsFileNum s + 1) s)) as (_&_&_&_&Hw').
    simpl. done.
  - destruct (start_encoder_effect frame im s)
      as ([[-> _]|(c & fn & Hw' & _)]&_); [done|].
    rewrite Hw'. by simplify_eq.
  - destruct Hc as (vf & Hd & Hf & Hn).
    apply write_frame_Some in Hwf as (_&->&_&->&_).
    exists (mkVideoFile (frames vf ++ [im]) (finalized vf)).
    rewrite lookup_alter_eq, Hd. simpl. split; [done|]. split; [done|].
    rewrite length_app. simpl. lia.
  - simpl. by rewrite Hw.
  - apply write_frame_Some in Hwf as (_&->&_&->&_). simpl.
    exists (mkVideoFile [im] false).
    rewrite lookup_alter_eq, lookup_insert_eq. simpl. split; [done|].
    split; [done|]. lia.
  - done.
Qed.

Lemma step_count_matches a s s' :
  step a s = Some s' -> count_matches_file s -> count_matches_file s'.
Proof.
  intros H Hc. destruct (run_or_engine a) as [->|Ha].
  - apply run_step_case in H. by eapply run_case_count_matches.
  - apply engine_step in H as (_&Hw&_&Hd&_); [|done].
    unfold count_matches_file in *. rewrite Hw, Hd. by destruct a.
Qed.

(** X15. From the constructed module on, whatever the schedule, the count
    [run] keeps of the frames of its session (the number it reports with
    [SAVEDNUM]) is the number of frames in the file it has open, which is
    on disk and not finalized; while no file is open the count is zero. *)
Theorem frame_count_matches_the_file (fn fcc : string) (rate : Q)
    (w : World) (d : gmap string VideoFile) (sched : list Action)
    (s : State) :
  exec sched (SaveVideo fn fcc rate w d) = Some s ->
  match worker s with
  | WPop (Some path) frame | WGot (Some path) frame _ =>
    exists vf, disk s !! path = Some vf /\ finalized vf = false /\
               Z.of_nat (length (frames vf)) = frame
  | WPop None frame | WGot None frame _ | WProbe frame _ _ _ => frame = 0
  | _ => True
  end.
Proof.
  intros H. change (count_matches_file s).
  assert (H0 : count_matches_file (SaveVideo fn fcc rate w d)) by exact I.
  revert H H0. generalize (SaveVideo fn fcc rate w d).
  induction sched as [|a sched IH]; simpl; intros s0 H H0.
  - by simplify_eq.
  - destruct (step a s0) as [s1|] eqn:Hs1; simpl in H; [|done].
    eauto using step_count_matches.
Qed.

Lemma frame_count_matches_the_file_witness :
  exists vf, disk busy_session !! "/jevois/data/savevideo/video000000.avi"
             = Some vf /\ finalized vf = false /\
             Z.of_nat (length (frames vf)) = 1.
Proof.
  assert (Hx : exec [APostInit; ARun; AParseSerial "start";
                     AProcessNoUsb (yuyv 1); ARun; ARun; ARun;
                     AProcessNoUsb (yuyv 2); AProcessNoUsb (yuyv 3)]
                 (fresh quiet ∅) = Some busy_session)
    by (vm_compute; reflexivity).
  pose proof (frame_count_matches_the_file _ _ _ _ _ _ _ Hx) as Hc.
  assert (Hw : worker busy_session
               = WPop (Some "/jevois/data/savevideo/video000000.avi") 1)
    by (vm_compute; reflexivity).
  rewrite Hw in Hc. exact Hc.
Defined.

Lemma engine_step_filename a s s' :
  a <> ARun -> step a s = Some s' -> itsFilename s' = itsFilename s.
Proof.
  intros Ha H. destruct a; try done; simpl in H;
    unfold when_free, main_step, process, process_nousb, parseSerial,
      sync_and_report in H;
    destruct (main s); try done; simplify_eq;
    repeat (break_inner; simpl; simplify_eq); done.
Qed.

Lemma run_case_names_last_opened s s' :
  run_case s s' -> names_last_opened s -> names_last_opened s'.
Proof.
  unfold names_last_opened, opened. intros H Hc.
  destruct H as [Hw|???? Hw Hq|??? Hw He Hlt|?? Hw He|???? Hw He Hwf
                 |????? Hw Ht Hd Hlt|?????? Hw Ht Hd Ho Hwf|????? Hw Ht Hd Ho];
    rewrite Hw in Hc.
  - simpl. by destruct (itsRunning s).
  - done.
  - unfold writer_destroyed. destruct writer; simpl; [|done].
    by rewrite omap_app, app_nil_r.
  - destruct (start_encoder_effect frame im s)
      as ([[Hw' _]|(c & fn & Hw' & _)]&He'&_&_&_&Hf'&_);
      rewrite Hw'; [done|]. by rewrite He', Hf'.
  - apply write_frame_Some in Hwf as (_&->&->&_&_&_&->&_).
    by rewrite omap_app, app_nil_r.
  - simpl. by rewrite Hw.
  - apply write_frame_Some in Hwf as (_&->&->&_&_&_&->&_). simpl.
    rewrite !omap_app. simpl. by rewrite app_nil_r, last_snoc.
  - done.
Qed.

Lemma step_names_last_opened a s s' :
  step a s = Some s' -> launched_by_postInit s ->
  names_last_opened s -> names_last_opened s'.
Proof.
  intros H Hl Hc. destruct (run_or_engine a) as [->|Ha].
  - apply run_step_case in H. by eapply run_case_names_last_opened.
  - pose proof (engine_step_filename _ _ _ Ha H) as Hf.
    pose proof H as H0. apply engine_step in H as (_&Hw&He&_); [|done].
    unfold names_last_opened, opened in *. rewrite Hw, He, Hf.
    destruct a; try done.
    simpl in H0. destruct (main s) eqn:Hm; try done.
    by rewrite (Hl Hm) in Hc.
Qed.

(** X16. From the constructed module on, whatever the schedule, as long as
    [run] has not thrown, [itsFilename] is the path of the file opened
    last, and empty before any was opened.  So the message that ends a
    stop command, [Video ... saved.], names that file: the file of an
    earlier session when the session just stopped recorded no frame, and
    no file at all when none was ever opened. *)
Theorem saved_message_names_last_opened_file (fn fcc : string) (rate : Q)
    (w : World) (d : gmap string VideoFile) (sched : list Action)
    (s : State) :
  exec sched (SaveVideo fn fcc rate w d) = Some s ->
  (forall what im, worker s <> WThrown what im) ->
  itsFilename s = default "" (last (opened s)) /\
  (main s = MStopWait -> itsBuf s = [] ->
   exists s', main_step s = Some s' /\ main s' = MFree /\
     last (logs s')
     = Some (LINFO, "Video " +:+ default "" (last (opened s)) +:+ " saved.")).
Proof.
  intros H Hnt.
  assert (Hn : names_last_opened s).
  { assert (H0 : launched_by_postInit (SaveVideo fn fcc rate w d) /\
                 names_last_opened (SaveVideo fn fcc rate w d)) by done.
    revert H H0. generalize (SaveVideo fn fcc rate w d).
    induction sched as [|a sched IH]; simpl; intros s0 H [Hl H0].
    - by simplify_eq.
    - destruct (step a s0) as [s1|] eqn:Hs1; simpl in H; [|done].
      apply (IH s1 H). split; [by eapply step_launched|].
      by eapply step_names_last_opened. }
  assert (Hf : itsFilename s = default "" (last (opened s))).
  { unfold names_last_opened in Hn. destruct (worker s) eqn:Hw; try done.
    by destruct (Hnt what im). }
  split; [done|]. intros Hm Hq.
  exists (set_main MFree (sync_and_report s)). split.
  - unfold main_step. by rewrite Hm, (proj2 (filled_size_zero s) Hq).
  - split; [done|]. rewrite <- Hf. unfold sync_and_report. cbn.
    destruct (system (env s) "/bin/sync" =? 0); cbn; by rewrite last_snoc.
Qed.

Lemma saved_message_names_last_opened_file_witness :
  exists s s',
    exec (two_sessions ++ [AParseSerial "start"; AParseSerial "stop";
                           ARun; ARun; ARun])
         (fresh quiet old_disk) = Some s /\
    main_step s = Some s' /\
    last (logs s')
    = Some (LINFO, "Video /jevois/data/savevideo/video000002.avi saved.").
Proof.
  destruct (exec (two_sessions ++ [AParseSerial "start"; AParseSerial "stop";
                                   ARun; ARun; ARun])
              (fresh quiet old_disk)) as [s|] eqn:Hx;
    [|vm_compute in Hx; discriminate].
  destruct (saved_message_names_last_opened_file _ _ _ _ _ _ _ Hx)
    as [_ Hb].
  - vm_compute in Hx. injection Hx as <-. intros what im. vm_compute.
    discriminate.
  - destruct Hb as (s' & Hs & _ & Hl).
    + vm_compute in Hx. injection Hx as <-. reflexivity.
    + vm_compute in Hx. injection Hx as <-. reflexivity.
    + exists s, s'. split; [reflexivity|]. split; [exact Hs|].
      rewrite Hl. f_equal. f_equal.
      vm_compute in Hx. injection Hx as <-. vm_compute. reflexivity.
Defined.

(** ** Further properties: probing the file names *)

Lemma ifstream_is_open_readable path vf s :
  disk s !! path = Some vf -> readable (env s) path = true ->
  ifstream_is_open path s = true.
Proof. unfold ifstream_is_open. by intros -> ->. Qed.

Lemma step_keeps_readable_files a s s' path vf :
  step a s = Some s' ->
  disk s !! path = Some vf -> readable (env s) path = true ->
  writer_of s <> Some path ->
  disk s' !! path = Some vf /\ writer_of s' <> Some path.
Proof.
  intros H Hd Hr Hwr. destruct (run_or_engine a) as [->|Ha].
  - apply run_step_case in H. unfold writer_of in *.
    destruct H as [Hw|???? Hw Hq|??? Hw He Hlt|?? Hw He|???? Hw He Hwf
                   |????? Hw Ht Hd' Hlt|?????? Hw Ht Hd' Ho Hwf
                   |????? Hw Ht Hd' Ho];
      rewrite Hw in Hwr; simpl in *.
    + split; [done|]. by destruct (itsRunning s).
    + done.
    + destruct (writer_destroyed_effect writer
                  (set_itsFileNum (itsFileNum s + 1) s)) as (Hd1&_).
      rewrite Hd1. split; [|done]. destruct writer as [p|]; simpl; [|done].
      rewrite lookup_alter_ne; [done|congruence].
    + destruct (start_encoder_effect frame im s)
        as ([[-> _]|(?&?&->&_)]&_&->&_); done.
    + apply write_frame_Some in Hwf as (_&->&_&->&_). split; [|done].
      rewrite lookup_alter_ne; [done|congruence].
    + by rewrite Hw.
    + assert (tmp <> path).
      { intros ->.
        by rewrite (ifstream_is_open_readable _ _ _ Hd Hr) in Hd'. }
      apply write_frame_Some in Hwf as (_&->&_&->&_). simpl.
      split; [|congruence].
      by rewrite lookup_alter_ne, lookup_insert_ne.
    + done.
  - apply engine_step in H as (_&Hw&_&->&_); [|done]. split; [done|].
    unfold writer_of in *. rewrite Hw. by destruct a.
Qed.

Lemma exec_keeps_readable_files sched s s' path vf :
  exec sched s = Some s' ->
  disk s !! path = Some vf -> readable (env s) path = true ->
  writer_of s <> Some path ->
  disk s' !! path = Some vf /\ writer_of s' <> Some path.
Proof.
  revert s. induction sched as [|a sched IH]; simpl; intros s H Hd Hr Hwr.
  - by simplify_eq.
  - destruct (step a s) as [s1|] eqn:Hs1; simpl in H; [|done].
    destruct (step_keeps_readable_files _ _ _ _ _ Hs1 Hd Hr Hwr).
    apply (IH s1); try done. by rewrite (step_env _ _ _ Hs1).
Qed.

Lemma probe_until_free k : forall s frame im cvfcc fn tmp,
  worker s = WProbe frame im cvfcc fn ->
  (forall i, (i < k)%nat ->
     exists t, snprintf 2047 fn (itsFileNum s + Z.of_nat i) = Some t /\
               ifstream_is_open t s = true) ->
  snprintf 2047 fn (itsFileNum s + Z.of_nat k) = Some tmp ->
  ifstream_is_open tmp s = false ->
  itsFileNum s + Z.of_nat k <= INT_MAX -> frame < INT_MAX ->
  encoder_open (env s) tmp cvfcc (fps s) (Mat_size im) = true ->
  exists s', exec (replicate (S k) ARun) s = Some s' /\
    itsFileNum s' = itsFileNum s + Z.of_nat k /\ itsFilename s' = tmp /\
    worker s' = WPop (Some tmp) (frame + 1) /\
    disk s' !! tmp = Some (mkVideoFile [im] false).
Proof.
  induction k as [|k IH]; intros s frame im cvfcc fn tmp Hw Hex Ht Hd Hle Hf Ho.
  - rewrite Z.add_0_r in Ht.
    destruct (write_frame_lt tmp frame im
                (sendSerial ("SAVETO " +:+ tmp)
                   (writer_opened tmp cvfcc (Mat_size im)
                      (set_itsFilename tmp s))) Hf) as [s' Hs'].
    exists s'. cbn [replicate].
    assert (H1 : step ARun s = Some s').
    { apply run_step_case. by eapply run_open. }
    rewrite (exec_cons _ _ _ _ H1). split; [done|].
    apply write_frame_Some in Hs' as (_&Hw'&_&Hd'&_&Hn'&Hf'&_).
    rewrite Hw', Hd', Hn', Hf'. simpl. repeat split; try lia; try done.
    by rewrite lookup_alter_eq, lookup_insert_eq.
  - destruct (Hex 0%nat) as (t & Ht0 & Hd0); [lia|].
    rewrite Z.add_0_r in Ht0.
    assert (H1 : step ARun s = Some (set_itsFileNum (itsFileNum s + 1) s)).
    { apply run_step_case. eapply run_skip; [done..|lia]. }
    destruct (IH (set_itsFileNum (itsFileNum s + 1) s) frame im cvfcc fn tmp)
      as (s' & Hx & Hn & Hrest); [cbn; try done..|].
    + intros i Hi. destruct (Hex (S i)) as (t' & Ht' & Hd'); [lia|].
      exists t'. split; [|done]. rewrite <- Ht'. f_equal. lia.
    + rewrite <- Ht. f_equal. lia.
    + lia.
    + exists s'. cbn [replicate]. rewrite (exec_cons _ _ _ _ H1).
      split; [done|]. split; [|done]. rewrite Hn. simpl. lia.
Qed.

(** X18. While probing, [run] formats the name with the counter; if
    [std::ifstream] opens that name (a file of that name exists and can be
    read) it adds one to the counter and probes again, changing nothing
    else; if not, that name becomes the output path, and with an encoder
    that opens, the new file holds the first frame and every other file is
    as before.  When the names for the next [k] values of the counter are
    opened by [std::ifstream] and the one after them is not, [k + 1] steps
    of [run] leave the counter [k] higher and open that name.  So along
    every schedule a file that exists and can be read, other than the one
    [run] has open, is never opened or changed.  With a readable
    [video000000.avi] on disk and the default parameters, two sessions of
    one frame each produce [video000001.avi] and then [video000002.avi]. *)
Theorem probing_skips_readable_files :
  (forall s frame im cvfcc fn tmp,
     worker s = WProbe frame im cvfcc fn ->
     snprintf 2047 fn (itsFileNum s) = Some tmp ->
     (ifstream_is_open tmp s = true -> itsFileNum s < INT_MAX ->
      run_step s = Some (set_itsFileNum (itsFileNum s + 1) s)) /\
     (ifstream_is_open tmp s = false -> frame < INT_MAX ->
      exists s', run_step s = Some s' /\
        itsFilename s' = tmp /\ itsFileNum s' = itsFileNum s /\
        (encoder_open (env s) tmp cvfcc (fps s) (Mat_size im) = true ->
         worker s' = WPop (Some tmp) (frame + 1) /\
         disk s' !! tmp = Some (mkVideoFile [im] false) /\
         forall path, path <> tmp -> disk s' !! path = disk s !! path))) /\
  (forall k s frame im cvfcc fn tmp,
     worker s = WProbe frame im cvfcc fn ->
     (forall i, (i < k)%nat ->
        exists t, snprintf 2047 fn (itsFileNum s + Z.of_nat i) = Some t /\
                  ifstream_is_open t s = true) ->
     snprintf 2047 fn (itsFileNum s + Z.of_nat k) = Some tmp ->
     ifstream_is_open tmp s = false ->
     itsFileNum s + Z.of_nat k <= INT_MAX -> frame < INT_MAX ->
     encoder_open (env s) tmp cvfcc (fps s) (Mat_size im) = true ->
     exists s', exec (replicate (S k) ARun) s = Some s' /\
       itsFileNum s' = itsFileNum s + Z.of_nat k /\ itsFilename s' = tmp /\
       worker s' = WPop (Some tmp) (frame + 1) /\
       disk s' !! tmp = Some (mkVideoFile [im] false)) /\
  (forall sched s s' path vf,
     exec sched s = Some s' ->
     disk s !! path = Some vf -> readable (env s) path = true ->
     writer_of s <> Some path ->
     disk s' !! path = Some vf /\ writer_of s' <> Some path) /\
  (exists s', exec two_sessions (fresh quiet old_disk) = Some s' /\
     itsFileNum s' = 3 /\
     serial s' = ["SAVESTART";
                  "SAVETO /jevois/data/savevideo/video000001.avi";
                  "SAVESTOP"; "SAVESTART";
                  "SAVETO /jevois/data/savevideo/video000002.avi";
                  "SAVESTOP"] /\
     disk s' = {[ "/jevois/data/savevideo/video000000.avi"
                    := mkVideoFile [] true;
                  "/jevois/data/savevideo/video000001.avi"
                    := mkVideoFile [mkMat 1 2 [1]] true;
                  "/jevois/data/savevideo/video000002.avi"
                    := mkVideoFile [mkMat 1 2 [2]] true ]}).
Proof.
  split; [|split; [|split]].
  - intros s frame im cvfcc fn tmp Hw Ht. split.
    + intros Hd Hlt. apply run_step_case. by eapply run_skip.
    + intros Hd Hlt.
      destruct (encoder_open (env s) tmp cvfcc (fps s) (Mat_size im)) eqn:Ho.
      * destruct (write_frame_lt tmp frame im
                    (sendSerial ("SAVETO " +:+ tmp)
                       (writer_opened tmp cvfcc (Mat_size im)
                          (set_itsFilename tmp s))) Hlt) as [s' Hs'].
        exists s'. split; [apply run_step_case; by eapply run_open|].
        apply write_frame_Some in Hs' as (_&Hw'&_&Hd'&_&Hn'&Hf'&_).
        rewrite Hw', Hd', Hn', Hf'. simpl. repeat split; try done.
        -- by rewrite lookup_alter_eq, lookup_insert_eq.
        -- intros path Hp. by rewrite lookup_alter_ne, lookup_insert_ne.
      * eexists. split; [apply run_step_case; by eapply run_open_failed|].
        done.
  - intros. by eapply probe_until_free.
  - intros. by eapply exec_keeps_readable_files.
  - exists (final two_sessions (fresh quiet old_disk)). by_evaluation.
Qed.

Lemma probing_skips_readable_files_witness :
  (exists s', run_step no_codec_session = Some s' /\
              itsFilename s' = "/jevois/data/savevideo/video000000.avi") /\
  (exists s', exec [ARun; ARun] probing_session = Some s' /\
              itsFileNum s' = 1 /\
              itsFilename s' = "/jevois/data/savevideo/video000001.avi") /\
  (exists s', exec two_sessions (fresh quiet old_disk) = Some s' /\
              disk s' !! "/jevois/data/savevideo/video000000.avi"
              = Some (mkVideoFile [] true)).
Proof.
  destruct probing_skips_readable_files as (Ha & Hk & Hb & _).
  split; [|split].
  - destruct (Ha no_codec_session 0 (mkMat 1 2 [1]) 1196444237
                 "/jevois/data/savevideo/video%06d.avi"
                 "/jevois/data/savevideo/video000000.avi")
      as (_ & Hfree); [vm_compute; reflexivity..|].
    destruct Hfree as (s' & Hs & Hf & _); [vm_compute; reflexivity..|].
    exists s'. split; [exact Hs | exact Hf].
  - destruct (Hk 1%nat probing_session 0 (mkMat 1 2 [1]) 1196444237
                 "/jevois/data/savevideo/video%06d.avi"
                 "/jevois/data/savevideo/video000001.avi")
      as (s' & Hx & Hn & Hf & _).
    + vm_compute. reflexivity.
    + intros i Hi. assert (i = 0%nat) as -> by lia.
      exists "/jevois/data/savevideo/video000000.avi".
      split; vm_compute; reflexivity.
    + vm_compute. reflexivity.
    + vm_compute. reflexivity.
    + vm_compute. discriminate.
    + reflexivity.
    + vm_compute. reflexivity.
    + exists s'. split; [exact Hx|]. split; [exact Hn | exact Hf].
  - destruct (exec two_sessions (fresh quiet old_disk)) as [s'|] eqn:Hx;
      [|vm_compute in Hx; discriminate].
    exists s'. split; [reflexivity|].
    apply (Hb two_sessions (fresh quiet old_disk) s').
    + exact Hx.
    + vm_compute. reflexivity.
    + reflexivity.
    + vm_compute. discriminate.
Defined.
Example snprintf_default_name :
  snprintf 2047 "video%06d.avi" 12 = Some "video000012.avi".
Proof. reflexivity. Qed.

Example snprintf_plain_name : snprintf 2047 "clip.avi" 3 = Some "clip.avi".
Proof. reflexivity. Qed.

Example snprintf_negative : snprintf 2047 "v%04d" (-7) = Some "v-007".
Proof. reflexivity. Qed.

Example fourcc_mjpg : VideoWriter_fourcc "M" "J" "P" "G" = 0x47504a4d.
Proof. reflexivity. Qed.
